(** * Relay synchronisation of the Pico-W dashboard

    A shallow embedding of the relay state handling of [js/app.js]
    (class [HomeAutomationApp]) and of its sibling [frontend/js/app.js],
    with the properties of the relay store, of snapshot application and
    of the write intents.

    Conventions of the embedding.
    - The in-memory store [this.relayStates] is a finite map from channel
      identifiers to records.  In [js/app.js] it is a plain object used as
      a dictionary: the map holds its own properties, and a read under an
      identifier it does not own sees what a plain object inherits from
      [Object.prototype] ([constructor], [toString], ...).  A snapshot
      never has the key [__proto__]: the database client builds the object
      by assignment, which cannot create that key.  In
      [frontend/js/app.js] the store is a [Map].
    - A snapshot value ([snapshot.val()]) is an association list in key
      enumeration order; a JavaScript object has each key once, which is
      the side condition [NoDup (Object_keys o)] where a statement needs it.
    - [new Date()] reads a clock that the caller of a handler supplies:
      [clock i] is the time read while the [i]-th key is processed.
    - An awaited remote call settles as the [Reply] handed to the function.
    - Of the DOM, only the text of [#active-count] and the notifications
      shown are modelled. *)

From Stdlib Require Import ZArith String Ascii List.
From stdpp Require Import base tactics option list gmap strings fin_maps pretty.


(** ** JavaScript values *)

Module JS.

(** The values that reach the relay logic: JSON scalars delivered by the
    database, [undefined] for an absent property, and objects, of which
    only the truthiness is observed.  Numbers are integers here. *)
Inductive value : Type :=
  | VUndefined
  | VNull
  | VBool (b : bool)
  | VNum (n : Z)
  | VStr (s : string)
  | VObj.

#[global] Instance value_eq_dec : EqDecision value.
Proof. solve_decision. Defined.

(** ToBoolean. *)
Definition truthy (v : value) : bool :=
  match v with
  | VUndefined | VNull => false
  | VBool b => b
  | VNum n => negb (n =? 0)%Z
  | VStr s => negb (String.eqb s "")
  | VObj => true
  end.

(** [a || b] *)
Definition or_else (a b : value) : value := if truthy a then a else b.

(** [!a] *)
Definition not_ (a : value) : value := VBool (negb (truthy a)).

(** [cond ? 'ON' : 'OFF'] *)
Definition on_off (v : value) : string := if truthy v then "ON" else "OFF".

(** [s.split(sep)] for a one-character separator. *)
Fixpoint split (sep : ascii) (s : string) : list string :=
  match s with
  | EmptyString => [EmptyString]
  | String c rest =>
      if Ascii.eqb c sep then EmptyString :: split sep rest
      else match split sep rest with
           | [] => [String c EmptyString]
           | hd :: tl => String c hd :: tl
           end
  end.

(** Interpolation [${x}] of an array element: a string, or [undefined]. *)
Definition interpolate (x : option string) : string :=
  match x with
  | Some s => s
  | None => "undefined"
  end.

(** [c.toUpperCase()] on ASCII letters. *)
Definition upper_ascii (c : ascii) : ascii :=
  let n := nat_of_ascii c in
  if (97 <=? n)%nat && (n <=? 122)%nat then ascii_of_nat (n - 32) else c.

Fixpoint toUpperCase (s : string) : string :=
  match s with
  | EmptyString => EmptyString
  | String c rest => String (upper_ascii c) (toUpperCase rest)
  end.

(** Objects used as records of unknown keys: properties in enumeration
    order. *)
Definition Object_keys {A} (o : list (string * A)) : list string := o.*1.

Fixpoint get {A} (o : list (string * A)) (k : string) : option A :=
  match o with
  | [] => None
  | (k', v) :: rest => if decide (k' = k) then Some v else get rest k
  end.

(** [o[k] = v]: overwrite in place, or append a new property. *)
Fixpoint set {A} (o : list (string * A)) (k : string) (v : A) : list (string * A) :=
  match o with
  | [] => [(k, v)]
  | (k', v') :: rest =>
      if decide (k' = k) then (k, v) :: rest else (k', v') :: set rest k v
  end.

(** The properties a plain object inherits from [Object.prototype]. *)
Definition Object_prototype : list string :=
  [ "constructor"; "__defineGetter__"; "__defineSetter__"; "hasOwnProperty";
    "__lookupGetter__"; "__lookupSetter__"; "isPrototypeOf";
    "propertyIsEnumerable"; "toString"; "valueOf"; "__proto__"; "toLocaleString" ].

(** [o[k]?.name] for a plain object [o] that does not own [k]: the
    inherited methods are functions named after their key, [constructor]
    is the function [Object], [__proto__] reads as [Object.prototype],
    which has no name; any other key reads as [undefined].  None of the
    inherited members has a property [status]. *)
Definition inherited_name (k : string) : value :=
  if decide (k = "constructor") then VStr "Object"
  else if decide (k = "__proto__") then VUndefined
  else if decide (k ∈ Object_prototype) then VStr k
  else VUndefined.

End JS.

Import JS.

(** ** Constants of [js/app.js] *)

Definition DEVICE_ID : string := "pico_w_001".

Definition RELAY_NAMES : list string :=
[ "Living Room Light"; "Kitchen Fan"; "Bedroom AC"; "Garden Pump";
  "Garage Door"; "Pool Pump"; "Security Light"; "Bathroom Fan";
  "Washing Machine"; "Dryer"; "Water Heater"; "Outdoor Light";
  "Workshop Light"; "Shed Power"; "Irrigation System"; "Backup Power" ].

(** [`relay_${i}`] *)
Definition relay_id (i : nat) : string := "relay_" +:+ pretty i.

(** [RELAY_NAMES[i - 1] || `Device ${i}`] *)
Definition default_name (i : nat) : string :=
match RELAY_NAMES !! (i - 1)%nat with
| Some s => if String.eqb s "" then "Device " +:+ pretty i else s
| None => "Device " +:+ pretty i
end.

(** [`home_automation/devices/${DEVICE_ID}/relays/${relayId}/status`] *)
Definition status_path (relayId : string) : string :=
"home_automation/devices/" +:+ DEVICE_ID +:+ "/relays/" +:+ relayId +:+ "/status".

(** The range of [for (let i = 1; i <= 16; i++)]. *)
Definition channels : list nat := seq 1 16.

(** What the database delivers for one child of [relays]: the properties
  the handlers read, [VUndefined] when absent. *)
Record RelayData : Type := mkRelayData {
r_status : value;
r_name : value;
r_power_usage : value
}.

(** How an awaited remote call settles. *)
Inductive Reply : Type := Ack | Reject.

(** Calls issued to the database client. *)
Inductive DbCall : Type :=
| DbSet (path : string) (v : value)
| DbUpdate (updates : list (string * value))
| DbOn (path : string)
| DbOnce (path : string).

Inductive exn : Type := TypeError.

(** ** The dashboard of [js/app.js] *)

Module Dashboard.

(** One entry of [this.relayStates]. *)
Record RelayState : Type := mkRelayState {
  status : value;
  name : value;
  lastChanged : option Z
}.

#[global] Instance RelayState_eq_dec : EqDecision RelayState.
Proof. solve_decision. Defined.

(** The instance of [HomeAutomationApp], with what it has emitted so far:
    the calls to the database client, the notifications shown and the
    console lines, each in the order of emission. *)
Record App : Type := mkApp {
  relayStates : gmap string RelayState;
  deviceOnline : value;
  lastUpdate : option Z;
  activeCountText : option string;
  sent : list DbCall;
  notifications : list (string * string);
  console : list (string * string)
}.

Definition with_relayStates (st : gmap string RelayState) (a : App) : App :=
  mkApp st (deviceOnline a) (lastUpdate a) (activeCountText a)
        (sent a) (notifications a) (console a).

Definition with_activeCountText (t : string) (a : App) : App :=
  mkApp (relayStates a) (deviceOnline a) (lastUpdate a) (Some t)
        (sent a) (notifications a) (console a).

Definition with_deviceOnline (v : value) (a : App) : App :=
  mkApp (relayStates a) v (lastUpdate a) (activeCountText a)
        (sent a) (notifications a) (console a).

Definition with_lastUpdate (d : Z) (a : App) : App :=
  mkApp (relayStates a) (deviceOnline a) (Some d) (activeCountText a)
        (sent a) (notifications a) (console a).

Definition call (c : DbCall) (a : App) : App :=
  mkApp (relayStates a) (deviceOnline a) (lastUpdate a) (activeCountText a)
        (sent a ++ [c]) (notifications a) (console a).

Definition console_log (msg : string) (a : App) : App :=
  mkApp (relayStates a) (deviceOnline a) (lastUpdate a) (activeCountText a)
        (sent a) (notifications a) (console a ++ [("log", msg)]).

Definition console_error (msg : string) (a : App) : App :=
  mkApp (relayStates a) (deviceOnline a) (lastUpdate a) (activeCountText a)
        (sent a) (notifications a) (console a ++ [("error", msg)]).

(** [showNotification(message, type)]: a console line, then the toast. *)
Definition showNotification (message type : string) (a : App) : App :=
  let a := console_log (toUpperCase type +:+ ": " +:+ message) a in
  mkApp (relayStates a) (deviceOnline a) (lastUpdate a) (activeCountText a)
        (sent a) (notifications a ++ [(message, type)]) (console a).

(** The entry [createRelayControls] writes for channel [i]. *)
Definition initial_entry (i : nat) : RelayState :=
  {| status := VBool false; name := VStr (default_name i); lastChanged := None |}.

(** [createRelayControls()]: the loop body stores a fresh entry under
    [relay_<i>], whatever was there. *)
Definition createRelayControls (a : App) : App :=
  with_relayStates
    (foldl (λ st i, <[relay_id i := initial_entry i]> st) (relayStates a) channels)
    a.

(** [new HomeAutomationApp()] *)
Definition new_HomeAutomationApp : App :=
  createRelayControls
    {| relayStates := ∅; deviceOnline := VBool false; lastUpdate := None;
       activeCountText := None; sent := []; notifications := []; console := [] |}.

(** [`Device ${relayId.split('_')[1]}`] *)
Definition fallback_name (relayId : string) : string :=
  "Device " +:+ interpolate (split "_"%char relayId !! 1%nat).

(** [this.relayStates[relayId]?.name]: the name of the entry, or of what
    the plain object inherits under that key. *)
Definition cached_name (st : gmap string RelayState) (relayId : string) : value :=
  match st !! relayId with
  | Some e => name e
  | None => inherited_name relayId
  end.

(** The object literal assigned in the body of [updateRelayStates]. *)
Definition entry_of (st : gmap string RelayState) (now : Z)
    (relayId : string) (relay : RelayData) : RelayState :=
  {| status := or_else (r_status relay) (VBool false);
     name := or_else (r_name relay)
               (or_else (cached_name st relayId) (VStr (fallback_name relayId)));
     lastChanged := Some now |}.

(** [Object.keys(relayData).forEach(relayId => ...)]: each key is visited
    with its own value [relayData[relayId]], in enumeration order; [i]
    counts the keys visited so far. *)
Fixpoint forEach (clock : nat → Z) (i : nat) (relayData : list (string * RelayData))
    (st : gmap string RelayState) (activeCount : nat) : gmap string RelayState * nat :=
  match relayData with
  | [] => (st, activeCount)
  | (relayId, relay) :: rest =>
      let isActive := or_else (r_status relay) (VBool false) in
      let st' := <[relayId := entry_of st (clock i) relayId relay]> st in
      forEach clock (S i) rest st'
              (if truthy isActive then S activeCount else activeCount)
  end.

(** [updateRelayStates(relayData)] *)
Definition updateRelayStates (clock : nat → Z) (relayData : list (string * RelayData))
    (a : App) : App :=
  let '(st, activeCount) := forEach clock 0 relayData (relayStates a) 0 in
  with_activeCountText (pretty activeCount +:+ " / 16") (with_relayStates st a).

(** [setRelay(relayId, status)] *)
Definition setRelay (reply : Reply) (relayId : string) (st : value) (a : App) : App :=
  let a := call (DbSet (status_path relayId) st) a in
  match reply with
  | Ack => console_log (relayId +:+ " set to " +:+ on_off st) a
  | Reject =>
      showNotification ("Failed to control " +:+ relayId) "error"
        (console_error ("Error setting " +:+ relayId +:+ ":") a)
  end.

(** The outcome of an [async] method: it returns, or its promise rejects
    with an uncaught exception; either way with the state reached. *)
Inductive completion : Type :=
  | Returned (a : App)
  | Thrown (e : exn) (a : App).

Definition state_of (c : completion) : App :=
  match c with
  | Returned a | Thrown _ a => a
  end.

(** [toggleRelay(relayId)]: [this.relayStates[relayId].status] is the
    state of the entry; under a key the store does not own it is the
    [status] of an inherited member, which is [undefined], or it throws,
    when nothing is inherited under the key either. *)
Definition toggleRelay (reply : Reply) (relayId : string) (a : App) : completion :=
  match relayStates a !! relayId with
  | Some e => Returned (setRelay reply relayId (not_ (status e)) a)
  | None =>
      if decide (relayId ∈ Object_prototype)
      then Returned (setRelay reply relayId (not_ VUndefined) a)
      else Thrown TypeError a
  end.

(** The [updates] object built by the loop of [setAllRelays]. *)
Definition setAll_updates (st : value) : list (string * value) :=
  foldl (λ updates i, JS.set updates (status_path (relay_id i)) st) [] channels.

(** [setAllRelays(status)] *)
Definition setAllRelays (reply : Reply) (st : value) (a : App) : App :=
  let a := call (DbUpdate (setAll_updates st)) a in
  match reply with
  | Ack => showNotification ("All relays turned " +:+ on_off st) "success" a
  | Reject =>
      showNotification "Failed to control all relays" "error"
        (console_error "Error setting all relays:" a)
  end.

(** [this.relayStates[relayId]?.status || false]; an inherited member
    has no [status] either. *)
Definition cached_status (st : gmap string RelayState) (relayId : string) : value :=
  or_else (match st !! relayId with Some e => status e | None => VUndefined end)
          (VBool false).

(** The [updates] object built by the loop of [toggleAllRelays]. *)
Definition toggleAll_updates (st : gmap string RelayState) : list (string * value) :=
  foldl (λ updates i,
           JS.set updates (status_path (relay_id i)) (not_ (cached_status st (relay_id i))))
        [] channels.

(** [toggleAllRelays()] *)
Definition toggleAllRelays (reply : Reply) (a : App) : App :=
  let a := call (DbUpdate (toggleAll_updates (relayStates a))) a in
  match reply with
  | Ack => showNotification "All relays toggled" "success" a
  | Reject =>
      showNotification "Failed to toggle all relays" "error"
        (console_error "Error toggling all relays:" a)
  end.

(** [init()]: [setupFirebaseListeners] subscribes to three children of
    the device, [loadRelayStates] reads the relays once. *)
Definition device_path : string := "home_automation/devices/" +:+ DEVICE_ID.

Definition init (a : App) : App :=
  let a := console_log "Initializing Home Automation App..." a in
  let a := call (DbOn (device_path +:+ "/online")) a in
  let a := call (DbOn (device_path +:+ "/relays")) a in
  let a := call (DbOn (device_path +:+ "/last_update")) a in
  call (DbOnce (device_path +:+ "/relays")) a.

(** What can happen to an instance: the authentication manager calls
    [init()] after a sign-in, a subscription or the initial read delivers
    a value, or the user acts on a control.  A write intent carries the
    way its awaited write settles.  The values delivered have the shape
    of the database layout: any scalar for [online], an object keyed by
    channel or nothing for [relays], a number or nothing for
    [last_update]. *)
Inductive Event : Type :=
  | SignedIn
  | OnlineValue (v : value)
  | RelaysValue (clock : nat → Z) (relayData : option (list (string * RelayData)))
  | LastUpdateValue (timestamp : option Z)
  | AllOnClick (reply : Reply)
  | AllOffClick (reply : Reply)
  | ToggleAllClick (reply : Reply)
  | ToggleChange (relayId : string) (reply : Reply).

Definition handle (ev : Event) (a : App) : completion :=
  match ev with
  | SignedIn => Returned (init a)
  | OnlineValue v => Returned (with_deviceOnline (or_else v (VBool false)) a)
  | RelaysValue clock (Some relayData) => Returned (updateRelayStates clock relayData a)
  | RelaysValue _ None => Returned a
  | LastUpdateValue (Some timestamp) =>
      if (timestamp =? 0)%Z then Returned a
      else Returned (with_lastUpdate (timestamp * 1000) a)
  | LastUpdateValue None => Returned a
  | AllOnClick reply => Returned (setAllRelays reply (VBool true) a)
  | AllOffClick reply => Returned (setAllRelays reply (VBool false) a)
  | ToggleAllClick reply => Returned (toggleAllRelays reply a)
  | ToggleChange relayId reply => toggleRelay reply relayId a
  end.

(** The instance after a sequence of events; an uncaught exception ends
    the handler that raised it, not the page. *)
Definition run (evs : list Event) (a : App) : App :=
  foldl (λ a ev, state_of (handle ev a)) a evs.

(** The identifiers mentioned by the snapshots of an event sequence. *)
Definition snapshot_keys (ev : Event) : list string :=
  match ev with
  | RelaysValue _ (Some relayData) => Object_keys relayData
  | _ => []
  end.

(** The 16 identifiers of [createRelayControls]. *)
Definition relay_ids : list string := relay_id <$> channels.

(** Number of entries of a store whose state is on. *)
Definition active_in_store (st : gmap string RelayState) : nat :=
  length (filter (λ kv, truthy (status kv.2) = true) (map_to_list st)).

(** Number of entries of a snapshot whose delivered state is on. *)
Definition active_in_snapshot (relayData : list (string * RelayData)) : nat :=
  length (filter (λ kv, truthy (or_else (r_status kv.2) (VBool false)) = true) relayData).

(** What a write intent that was rejected leaves behind: the one call it
    attempted, an error notification, console lines, and nothing else. *)
Definition reported_failure (attempt : DbCall) (message : string) (a a' : App) : Prop :=
  relayStates a' = relayStates a ∧
  deviceOnline a' = deviceOnline a ∧
  lastUpdate a' = lastUpdate a ∧
  activeCountText a' = activeCountText a ∧
  sent a' = sent a ++ [attempt] ∧
  notifications a' = notifications a ++ [(message, "error")].

End Dashboard.

(** ** The dashboard of [frontend/js/app.js]

    The same class with a [Map] for the store, a power reading per relay
    and an optional REST server in front of the database. *)

Module Frontend.

(** [APP_CONFIG.RELAY_COUNT] *)
Definition RELAY_COUNT : nat := 16.

(** [API_CONFIG.ENDPOINTS.RELAYS] *)
Definition RELAYS : string := "/relays".

(** One entry of [this.relayStates]. *)
Record RelayState : Type := mkRelayState {
  status : value;
  name : value;
  lastChanged : option Z;
  powerUsage : value
}.

#[global] Instance RelayState_eq_dec : EqDecision RelayState.
Proof. solve_decision. Defined.

(** Calls that leave the page: to the database client, or
    [Utils.apiRequest(endpoint, {method, body})] with the object that is
    serialised into the body. *)
Inductive Call : Type :=
  | Db (c : DbCall)
  | Api (endpoint : string) (method : option string) (body : option (list (string * value))).

Record App : Type := mkApp {
  relayStates : gmap string RelayState;
  deviceOnline : value;
  apiConnected : bool;
  activeCountText : option string;
  sent : list Call;
  notifications : list (string * string);
  console : list (string * string)
}.

Definition with_relayStates (st : gmap string RelayState) (a : App) : App :=
  mkApp st (deviceOnline a) (apiConnected a) (activeCountText a)
        (sent a) (notifications a) (console a).

Definition with_activeCountText (t : string) (a : App) : App :=
  mkApp (relayStates a) (deviceOnline a) (apiConnected a) (Some t)
        (sent a) (notifications a) (console a).

Definition with_apiConnected (b : bool) (a : App) : App :=
  mkApp (relayStates a) (deviceOnline a) b (activeCountText a)
        (sent a) (notifications a) (console a).

Definition call (c : Call) (a : App) : App :=
  mkApp (relayStates a) (deviceOnline a) (apiConnected a) (activeCountText a)
        (sent a ++ [c]) (notifications a) (console a).

Definition console_error (msg : string) (a : App) : App :=
  mkApp (relayStates a) (deviceOnline a) (apiConnected a) (activeCountText a)
        (sent a) (notifications a) (console a ++ [("error", msg)]).

(** [showNotification(message, type)] *)
Definition showNotification (message type : string) (a : App) : App :=
  mkApp (relayStates a) (deviceOnline a) (apiConnected a) (activeCountText a)
        (sent a) (notifications a ++ [(message, type)]) (console a).

(** [Utils.apiRequest(endpoint, options)]: the request, and a console
    line when it fails, before the error is thrown on to the caller.  The
    identity token it attaches is not modelled. *)
Definition apiRequest (reply : Reply) (endpoint : string) (method : option string)
    (body : option (list (string * value))) (a : App) : App :=
  let a := call (Api endpoint method body) a in
  match reply with
  | Ack => a
  | Reject => console_error ("API request to " +:+ endpoint +:+ " failed:") a
  end.

(** [checkApiConnection()]: a request to [/status] decides the flag. *)
Definition checkApiConnection (reply : Reply) (a : App) : App :=
  let a := apiRequest reply "/status" None None a in
  match reply with
  | Ack => with_apiConnected true a
  | Reject => with_apiConnected false a
  end.

Definition initial_entry (i : nat) : RelayState :=
  {| status := VBool false; name := VStr (default_name i);
     lastChanged := None; powerUsage := VNum 0 |}.

(** [createRelayControls()] *)
Definition createRelayControls (a : App) : App :=
  with_relayStates
    (foldl (λ st i, <[relay_id i := initial_entry i]> st) (relayStates a) (seq 1 RELAY_COUNT))
    a.

(** [new HomeAutomationApp()] *)
Definition new_HomeAutomationApp : App :=
  createRelayControls
    {| relayStates := ∅; deviceOnline := VBool false; apiConnected := false;
       activeCountText := None; sent := []; notifications := []; console := [] |}.

(** [this.relayStates.get(relayId)?.name] *)
Definition cached_name (st : gmap string RelayState) (relayId : string) : value :=
  match st !! relayId with
  | Some e => name e
  | None => VUndefined
  end.

Definition entry_of (st : gmap string RelayState) (now : Z)
    (relayId : string) (data : RelayData) : RelayState :=
  {| status := or_else (r_status data) (VBool false);
     name := or_else (r_name data)
               (or_else (cached_name st relayId)
                        (VStr ("Device " +:+ interpolate (split "_"%char relayId !! 1%nat))));
     lastChanged := Some now;
     powerUsage := or_else (r_power_usage data) (VNum 0) |}.

(** [Object.entries(relayData).forEach(([relayId, data]) => ...)] *)
Fixpoint forEach (clock : nat → Z) (i : nat) (relayData : list (string * RelayData))
    (st : gmap string RelayState) (activeCount : nat) : gmap string RelayState * nat :=
  match relayData with
  | [] => (st, activeCount)
  | (relayId, data) :: rest =>
      let isActive := or_else (r_status data) (VBool false) in
      let st' := <[relayId := entry_of st (clock i) relayId data]> st in
      forEach clock (S i) rest st'
              (if truthy isActive then S activeCount else activeCount)
  end.

(** [updateRelayStates(relayData)] *)
Definition updateRelayStates (clock : nat → Z) (relayData : list (string * RelayData))
    (a : App) : App :=
  let '(st, activeCount) := forEach clock 0 relayData (relayStates a) 0 in
  with_activeCountText (pretty activeCount +:+ "/" +:+ pretty RELAY_COUNT)
                       (with_relayStates st a).

Inductive completion : Type :=
  | Returned (a : App)
  | Thrown (e : exn) (a : App).

(** [toggleRelay(relayId)]: the entry is read before the [try]; the
    request goes to the REST server when it answered the status check, to
    the database otherwise. *)
Definition toggleRelay (reply : Reply) (relayId : string) (a : App) : completion :=
  match relayStates a !! relayId with
  | None => Thrown TypeError a
  | Some currentState =>
      let newStatus := not_ (status currentState) in
      let a :=
        if apiConnected a
        then apiRequest reply (RELAYS +:+ "/" +:+ relayId) (Some "PUT")
                        (Some [("status", newStatus)]) a
        else call (Db (DbSet (status_path relayId) newStatus)) a in
      match reply with
      | Ack =>
          Returned (showNotification (relayId +:+ " turned " +:+ on_off newStatus) "success" a)
      | Reject =>
          Returned (showNotification ("Failed to control " +:+ relayId) "error"
                      (console_error ("Error toggling " +:+ relayId +:+ ":") a))
      end
  end.

Definition setAll_updates (st : value) : list (string * value) :=
  foldl (λ updates i, JS.set updates (status_path (relay_id i)) st) [] (seq 1 RELAY_COUNT).

(** [setAllRelays(status)] *)
Definition setAllRelays (reply : Reply) (st : value) (a : App) : App :=
  let a :=
    if apiConnected a
    then apiRequest reply (RELAYS +:+ "/bulk") (Some "PUT") (Some [("status", st)]) a
    else call (Db (DbUpdate (setAll_updates st))) a in
  match reply with
  | Ack => showNotification ("All relays turned " +:+ on_off st) "success" a
  | Reject =>
      showNotification "Failed to control all relays" "error"
        (console_error "Error setting all relays:" a)
  end.

(** The loop of [toggleAllRelays]: [currentState.status] throws on a
    missing entry, which abandons the object under construction. *)
Definition toggleAll_updates (st : gmap string RelayState) : option (list (string * value)) :=
  foldl (λ acc i,
           updates ← acc;
           currentState ← st !! relay_id i;
           Some (JS.set updates (status_path (relay_id i)) (not_ (status currentState))))
        (Some []) (seq 1 RELAY_COUNT).

Definition toggleAll_failed (a : App) : App :=
  showNotification "Failed to toggle all relays" "error"
    (console_error "Error toggling all relays:" a).

(** [toggleAllRelays()]: everything happens inside the [try]. *)
Definition toggleAllRelays (reply : Reply) (a : App) : App :=
  if apiConnected a then
    let a := apiRequest reply (RELAYS +:+ "/toggle-all") (Some "POST") None a in
    match reply with
    | Ack => showNotification "All relays toggled" "success" a
    | Reject => toggleAll_failed a
    end
  else
    match toggleAll_updates (relayStates a) with
    | None => toggleAll_failed a
    | Some updates =>
        let a := call (Db (DbUpdate updates)) a in
        match reply with
        | Ack => showNotification "All relays toggled" "success" a
        | Reject => toggleAll_failed a
        end
    end.

End Frontend.

(** ** Characters of an identifier *)

Module Text.

(** Whether the character [c] occurs in [s]. *)
Fixpoint contains (c : ascii) (s : string) : bool :=
  match s with
  | EmptyString => false
  | String c' rest => Ascii.eqb c' c || contains c rest
  end.

End Text.

(** ** Time displays

    [updateLastUpdateDisplay] of [js/app.js] and [Utils.formatTime] of the
    frontend turn the age of the last update into a text.  Times are
    epoch milliseconds; a number that is [NaN] is [None]; what the locale
    decides is left as a constructor. *)

Module Display.

Inductive text : Type :=
  | Literal (s : string)
  | LocaleTimeString (date : Z)
  | LocaleDateString (date : Z).

(** The largest time value a [Date] can hold, either side of the epoch. *)
Definition MAX_TIME : Z := 8640000000000000.

(** A [Date] object: it holds a time value, or it is an invalid date. *)
Inductive Date : Type :=
  | ValidDate (ms : Z)
  | InvalidDate.

(** [new Date(ms)] for a number [ms]: out of range, the date is invalid. *)
Definition new_Date (ms : Z) : Date :=
  if (Z.abs ms <=? MAX_TIME)%Z then ValidDate ms else InvalidDate.

(** The number a date converts to in arithmetic. *)
Definition valueOf (d : Date) : option Z :=
  match d with
  | ValidDate ms => Some ms
  | InvalidDate => None
  end.

(** [x < c]: false when [x] is [NaN]. *)
Definition lt (x : option Z) (c : Z) : bool :=
  match x with
  | Some v => (v <? c)%Z
  | None => false
  end.

(** Interpolation [${x}] of a number. *)
Definition number_text (x : option Z) : string :=
  match x with
  | Some v => pretty v
  | None => "NaN"
  end.

(** [d.toLocaleTimeString()] and [d.toLocaleDateString()] *)
Definition toLocaleTimeString (d : Date) : text :=
  match d with
  | ValidDate ms => LocaleTimeString ms
  | InvalidDate => Literal "Invalid Date"
  end.

Definition toLocaleDateString (d : Date) : text :=
  match d with
  | ValidDate ms => LocaleDateString ms
  | InvalidDate => Literal "Invalid Date"
  end.

(** The [displayText] computed by [updateLastUpdateDisplay()] of
    [js/app.js], [now] being the time value of [new Date()];
    [Math.floor] of a quotient is [Z.div]. *)
Definition displayText (now : Z) (lastUpdate : Date) : text :=
  let diffMs := (λ t, now - t)%Z <$> valueOf lastUpdate in
  let diffSecs := (λ d, d / 1000)%Z <$> diffMs in
  if lt diffSecs 60 then Literal "Just now"
  else if lt diffSecs 3600
       then Literal (number_text ((λ d, d / 60)%Z <$> diffSecs) +:+ "m ago")
  else toLocaleTimeString lastUpdate.

(** [updateLastUpdateDisplay()] of [js/app.js]: the text written to
    [#last-update], if the element is there and a time is known;
    [this.lastUpdate] is the [Date] made from the number the instance
    keeps. *)
Definition updateLastUpdateDisplay (element : bool) (now : Z) (a : Dashboard.App)
    : option text :=
  match Dashboard.lastUpdate a with
  | Some ms => if element then Some (displayText now (new_Date ms)) else None
  | None => None
  end.

(** What [Utils.formatTime] is given: [null] or [undefined], a number, or
    a [Date], as the dashboard passes it.  A string, which [new Date]
    would parse, is left out. *)
Inductive time_arg : Type :=
  | NoTime
  | TimeNumber (n : Z)
  | TimeDate (d : Date).

(** [!date] *)
Definition absent (date : time_arg) : bool :=
  match date with
  | NoTime => true
  | TimeNumber n => (n =? 0)%Z
  | TimeDate _ => false
  end.

(** [new Date(date)], where [formatTime] gets to it. *)
Definition Date_of (date : time_arg) : Date :=
  match date with
  | NoTime => InvalidDate
  | TimeNumber n => new_Date n
  | TimeDate d => d
  end.

(** [Utils.formatTime(date)] *)
Definition formatTime (now : Z) (date : time_arg) : text :=
  if absent date then Literal "Never"
  else
    let diff := (λ t, now - t)%Z <$> valueOf (Date_of date) in
    let minutes := (λ d, d / 60000)%Z <$> diff in
    if lt minutes 1 then Literal "Just now"
    else if lt minutes 60 then Literal (number_text minutes +:+ "m ago")
    else if lt minutes 1440
         then Literal (number_text ((λ m, m / 60)%Z <$> minutes) +:+ "h ago")
    else toLocaleDateString (Date_of date).

End Display.

(** ** What the dashboard sends *)

Module Traffic.
Import Dashboard.

(** A call that writes to the database. *)
Definition is_write (c : DbCall) : bool :=
  match c with
  | DbSet _ _ | DbUpdate _ => true
  | DbOn _ | DbOnce _ => false
  end.

(** A call that registers a listener. *)
Definition is_subscription (c : DbCall) : bool :=
  match c with
  | DbOn _ => true
  | _ => false
  end.

(** An event that is an intent of the user. *)
Definition is_intent (ev : Event) : bool :=
  match ev with
  | AllOnClick _ | AllOffClick _ | ToggleAllClick _ | ToggleChange _ _ => true
  | SignedIn | OnlineValue _ | RelaysValue _ _ | LastUpdateValue _ => false
  end.

Definition is_sign_in (ev : Event) : bool :=
  match ev with
  | SignedIn => true
  | _ => false
  end.

(** The snapshot that delivers exactly what [toggleAllRelays] wrote from
    the store [st]: every channel with the written status, no name. *)
Definition toggleAll_echo (st : gmap string RelayState) : list (string * RelayData) :=
  (λ i, (relay_id i,
         mkRelayData (not_ (cached_status st (relay_id i))) VUndefined VUndefined))
  <$> channels.

End Traffic.

(** ** The authentication manager of [js/auth.js] *)

Module Auth.

(** How [auth.signInWithEmailAndPassword] settles: it resolves, or it
    rejects with an error whose [code] is given. *)
Inductive SignInResult : Type :=
  | SignInOk
  | SignInError (code : string).

(** The instance of [AuthManager]: a user is known by an identifier; of
    the page, the class [hidden] of the login modal and of the error line,
    the text of the error line, and the dashboard instance
    [window.homeAutomationApp], if the page has one. *)
Record AuthManager : Type := mkAuthManager {
  currentUser : option string;
  loginModalHidden : bool;
  loginErrorText : string;
  loginErrorHidden : bool;
  console : list (string * string);
  homeAutomationApp : option Dashboard.App
}.

(** [getErrorMessage(errorCode)] *)
Definition getErrorMessage (errorCode : string) : string :=
  if decide (errorCode = "auth/invalid-email") then "Invalid email address."
  else if decide (errorCode = "auth/user-disabled") then "This account has been disabled."
  else if decide (errorCode = "auth/user-not-found") then "No account found with this email."
  else if decide (errorCode = "auth/wrong-password") then "Incorrect password."
  else if decide (errorCode = "auth/too-many-requests")
       then "Too many failed attempts. Please try again later."
  else "Login failed. Please try again.".

(** [initializeApp()] *)
Definition initializeApp (m : AuthManager) : AuthManager :=
  mkAuthManager (currentUser m) (loginModalHidden m) (loginErrorText m)
                (loginErrorHidden m) (console m)
                (Dashboard.init <$> homeAutomationApp m).

(** The callback of [auth.onAuthStateChanged]. *)
Definition onAuthStateChanged (user : option string) (m : AuthManager) : AuthManager :=
  match user with
  | Some u =>
      initializeApp
        (mkAuthManager (Some u) true (loginErrorText m) (loginErrorHidden m)
                       (console m) (homeAutomationApp m))
  | None =>
      mkAuthManager None false (loginErrorText m) (loginErrorHidden m)
                    (console m) (homeAutomationApp m)
  end.

(** [login()] *)
Definition login (result : SignInResult) (m : AuthManager) : AuthManager :=
  match result with
  | SignInOk =>
      mkAuthManager (currentUser m) (loginModalHidden m) (loginErrorText m) true
                    (console m) (homeAutomationApp m)
  | SignInError code =>
      mkAuthManager (currentUser m) (loginModalHidden m) (getErrorMessage code) false
                    (console m) (homeAutomationApp m)
  end.

(** [logout()] *)
Definition logout (reply : Reply) (m : AuthManager) : AuthManager :=
  match reply with
  | Ack => m
  | Reject =>
      mkAuthManager (currentUser m) (loginModalHidden m) (loginErrorText m)
                    (loginErrorHidden m) (console m ++ [("error", "Logout error:")])
                    (homeAutomationApp m)
  end.

(** [new AuthManager()]: no user yet; the page's markup decides what is
    hidden and what the error line reads. *)
Definition new_AuthManager (modalHidden errorHidden : bool) (errorText : string)
    (dashboard : option Dashboard.App) : AuthManager :=
  mkAuthManager None modalHidden errorText errorHidden [] dashboard.

Inductive Event : Type :=
  | AuthStateChanged (user : option string)
  | LoginSubmit (result : SignInResult)
  | LogoutClick (reply : Reply).

Definition handle (ev : Event) (m : AuthManager) : AuthManager :=
  match ev with
  | AuthStateChanged user => onAuthStateChanged user m
  | LoginSubmit result => login result m
  | LogoutClick reply => logout reply m
  end.

Definition run (evs : list Event) (m : AuthManager) : AuthManager :=
  foldl (λ m ev, handle ev m) m evs.

Definition is_sign_in (ev : Event) : bool :=
  match ev with
  | AuthStateChanged (Some _) => true
  | _ => false
  end.

Definition is_auth_state (ev : Event) : bool :=
  match ev with
  | AuthStateChanged _ => true
  | _ => false
  end.

End Auth.

(** ** Loading and refreshing in [frontend/js/app.js] *)

Module FrontendSession.
Import Frontend.




Definition with_deviceOnline (v : value) (a : App) : App :=
  mkApp (relayStates a) v (apiConnected a) (activeCountText a)
        (sent a) (notifications a) (console a).





End FrontendSession.

(** * Properties *)

(** ** Values, strings and object literals *)

Lemma truthy_or_else (a b : value) : truthy (or_else a b) = truthy a || truthy b.
Proof. unfold or_else. destruct (truthy a) eqn:E; simpl; congruence. Qed.

Lemma truthy_or_else_false (a : value) : truthy (or_else a (VBool false)) = truthy a.
Proof. rewrite truthy_or_else. simpl. apply orb_false_r. Qed.

(** In an object, [o[k]] for the [j]-th key [k] is the value listed with
    it: visiting the keys and reading [o[k]] is visiting the entries. *)
Lemma get_lookup {A} (o : list (string * A)) (j : nat) (k : string) (v : A) :
  NoDup (Object_keys o) → o !! j = Some (k, v) → get o k = Some v.
Proof.
  unfold Object_keys. revert j.
  induction o as [|[k' v'] o IH]; intros j Hnd Hj; [done|].
  rewrite fmap_cons in Hnd. apply NoDup_cons in Hnd as [Hk Hnd].
  destruct j as [|j]; simpl in *.
  - injection Hj as -> ->. by rewrite decide_True.
  - rewrite decide_False; [by apply (IH j)|].
    intros ->. apply Hk. apply list_elem_of_fmap.
    exists (k, v). split; [done|]. by eapply list_elem_of_lookup_2.
Qed.

Lemma set_fresh {A} (o : list (string * A)) (k : string) (v : A) :
  k ∉ Object_keys o → JS.set o k v = o ++ [(k, v)].
Proof.
  unfold Object_keys. induction o as [|[k' v'] o IH]; simpl; intros Hk; [done|].
  apply not_elem_of_cons in Hk as [Hne Hk].
  rewrite decide_False by done. by rewrite IH.
Qed.

(** The loop [for (i ...) updates[key i] = val i] over distinct keys lists
    the properties in the order of the loop. *)
Lemma foldl_set_fresh {A} (key : nat → string) (val : nat → A)
    (l : list nat) (o : list (string * A)) :
  NoDup (Object_keys o ++ (key <$> l)) →
  foldl (λ updates i, JS.set updates (key i) (val i)) o l
  = o ++ ((λ i, (key i, val i)) <$> l).
Proof.
  revert o. induction l as [|i l IH]; intros o Hnd; simpl.
  - by rewrite app_nil_r.
  - assert (Hi : key i ∉ Object_keys o).
    { apply NoDup_app in Hnd as (_ & Hd & _). intros Hin.
      apply (Hd _ Hin). simpl. left. }
    rewrite set_fresh by done. rewrite IH.
    + by rewrite <- app_assoc.
    + unfold Object_keys in *. rewrite fmap_app. simpl.
      rewrite <- app_assoc. done.
Qed.

Lemma get_fmap_pair {A} (key : nat → string) (val : nat → A) (l : list nat) (i : nat) :
  Inj (=) (=) key → i ∈ l →
  get ((λ i, (key i, val i)) <$> l) (key i) = Some (val i).
Proof.
  intros Hinj. induction l as [|j l IH]; intros Hin; simpl.
  - by apply elem_of_nil in Hin.
  - destruct (decide (key j = key i)) as [Heq|Hne].
    + by rewrite (Hinj _ _ Heq).
    + apply elem_of_cons in Hin as [->|Hin]; [done|]. by apply IH.
Qed.

Lemma append_length (s t : string) :
  String.length (s +:+ t) = (String.length s + String.length t)%nat.
Proof. induction s as [|c s IH]; simpl; [done|]. by rewrite IH. Qed.

Lemma append_cancel_r (t s1 s2 : string) : s1 +:+ t = s2 +:+ t → s1 = s2.
Proof.
  revert s2. induction s1 as [|c s1 IH]; intros [|c2 s2] H.
  - done.
  - apply (f_equal String.length) in H.
    rewrite !append_length in H. simpl in H. lia.
  - apply (f_equal String.length) in H.
    rewrite !append_length in H. simpl in H. lia.
  - simpl in H. injection H as -> H. f_equal. by apply IH.
Qed.

#[global] Instance relay_id_inj : Inj (=) (=) relay_id.
Proof.
  intros i j H. unfold relay_id in H.
  apply (inj (String.append "relay_")) in H. by apply (inj pretty) in H.
Qed.

(** Distinct channels have distinct status paths. *)
#[global] Instance status_path_inj : Inj (=) (=) status_path.
Proof.
  intros x y H. unfold status_path in H.
  do 3 apply String.app_inj in H.
  by apply append_cancel_r in H.
Qed.

Lemma relay_ids_NoDup : NoDup (relay_id <$> channels).
Proof.
  unfold channels. apply (NoDup_fmap_2 _), NoDup_seq.
Qed.

Lemma status_paths_NoDup : NoDup ((λ i, status_path (relay_id i)) <$> channels).
Proof.
  unfold channels. apply NoDup_fmap_2_strong; [|apply NoDup_seq].
  intros i j _ _ H. by apply (inj status_path), (inj relay_id) in H.
Qed.

Lemma elem_of_channels (i : nat) : i ∈ channels ↔ 1 ≤ i ≤ 16.
Proof. unfold channels. rewrite elem_of_seq. lia. Qed.

(** The status paths, spelled out. *)
Lemma status_path_literal (relayId : string) :
  status_path relayId
  = "home_automation/devices/pico_w_001/relays/" +:+ relayId +:+ "/status".
Proof. reflexivity. Qed.

Lemma status_path_relay_id (i : nat) :
  status_path (relay_id i)
  = "home_automation/devices/pico_w_001/relays/relay_" +:+ pretty i +:+ "/status".
Proof. reflexivity. Qed.

Lemma status_paths_literal :
  (λ i, "home_automation/devices/pico_w_001/relays/relay_" +:+ pretty i +:+ "/status")
  <$> seq 1 16
  = [
       "home_automation/devices/pico_w_001/relays/relay_1/status";
       "home_automation/devices/pico_w_001/relays/relay_2/status";
       "home_automation/devices/pico_w_001/relays/relay_3/status";
       "home_automation/devices/pico_w_001/relays/relay_4/status";
       "home_automation/devices/pico_w_001/relays/relay_5/status";
       "home_automation/devices/pico_w_001/relays/relay_6/status";
       "home_automation/devices/pico_w_001/relays/relay_7/status";
       "home_automation/devices/pico_w_001/relays/relay_8/status";
       "home_automation/devices/pico_w_001/relays/relay_9/status";
       "home_automation/devices/pico_w_001/relays/relay_10/status";
       "home_automation/devices/pico_w_001/relays/relay_11/status";
       "home_automation/devices/pico_w_001/relays/relay_12/status";
       "home_automation/devices/pico_w_001/relays/relay_13/status";
       "home_automation/devices/pico_w_001/relays/relay_14/status";
       "home_automation/devices/pico_w_001/relays/relay_15/status";
       "home_automation/devices/pico_w_001/relays/relay_16/status" ].
Proof. vm_compute. reflexivity. Qed.

(** The loop [for (i ...) store[key i] = entry i]. *)
Section init_loop.
Context {V : Type} (entry : nat → V).

Lemma init_loop_other (l : list nat) (st : gmap string V) (k : string) :
  k ∉ relay_id <$> l →
  foldl (λ st i, <[relay_id i := entry i]> st) st l !! k = st !! k.
Proof.
  revert st. induction l as [|i l IH]; intros st Hk; simpl; [done|].
  rewrite fmap_cons in Hk. apply not_elem_of_cons in Hk as [Hne Hk].
  rewrite IH by done. by rewrite lookup_insert_ne.
Qed.

Lemma init_loop_channel (l : list nat) (st : gmap string V) (i : nat) :
  i ∈ l →
  foldl (λ st i, <[relay_id i := entry i]> st) st l !! relay_id i = Some (entry i).
Proof.
  revert st. induction l as [|j l IH] using rev_ind; intros st Hin.
  - by apply elem_of_nil in Hin.
  - rewrite foldl_snoc. destruct (decide (j = i)) as [->|Hne].
    + by rewrite lookup_insert_eq.
    + rewrite lookup_insert_ne by (intros H; by apply (inj relay_id) in H).
      apply IH. apply elem_of_app in Hin as [Hin|Hin]; [done|].
      apply list_elem_of_singleton in Hin. congruence.
Qed.

Lemma init_loop_dom (l : list nat) (st : gmap string V) :
  dom (foldl (λ st i, <[relay_id i := entry i]> st) st l)
  =@{gset string} dom st ∪ list_to_set (relay_id <$> l).
Proof.
  revert st. induction l as [|i l IH]; intros st; simpl.
  - by rewrite (right_id_L ∅ (∪)).
  - rewrite IH, dom_insert_L.
    by rewrite (comm_L (∪) {[relay_id i]} (dom st)), <- (assoc_L (∪)).
Qed.

Lemma init_loop_idem (l : list nat) (st : gmap string V) :
  let loop := foldl (λ st i, <[relay_id i := entry i]> st) in
  loop (loop st l) l = loop st l.
Proof.
  intros loop. apply map_eq. intros k.
  destruct (decide (k ∈ relay_id <$> l)) as [Hin|Hout].
  - apply list_elem_of_fmap in Hin as (i & -> & Hin).
    unfold loop. by rewrite !init_loop_channel.
  - unfold loop. by rewrite !init_loop_other.
Qed.
End init_loop.

(** ** The dashboard of [js/app.js] *)

Module DashboardFacts.
Import Dashboard.

(** *** Snapshot application *)

Lemma forEach_other clock i relayData (st : gmap string RelayState) n relayId :
  relayId ∉ Object_keys relayData →
  (forEach clock i relayData st n).1 !! relayId = st !! relayId.
Proof.
  unfold Object_keys. revert i st n.
  induction relayData as [|[k relay] rest IH]; intros i st n Hk; simpl; [done|].
  rewrite fmap_cons in Hk. apply not_elem_of_cons in Hk as [Hne Hk].
  rewrite IH by done. by rewrite lookup_insert_ne.
Qed.

Lemma entry_of_insert_ne (st : gmap string RelayState) now k e relayId relay :
  k ≠ relayId →
  entry_of (<[k := e]> st) now relayId relay = entry_of st now relayId relay.
Proof.
  intros Hne. unfold entry_of, cached_name. by rewrite lookup_insert_ne.
Qed.

(** With each key once, a mentioned channel ends up with the entry built
    from its own value, the name cached before the call and the time read
    at its turn. *)
Lemma forEach_mentioned clock i relayData (st : gmap string RelayState) n j relayId relay :
  NoDup (Object_keys relayData) →
  relayData !! j = Some (relayId, relay) →
  (forEach clock i relayData st n).1 !! relayId
  = Some (entry_of st (clock (i + j)%nat) relayId relay).
Proof.
  unfold Object_keys. revert i st n j.
  induction relayData as [|[k r] rest IH]; intros i st n j Hnd Hj; [done|].
  rewrite fmap_cons in Hnd. apply NoDup_cons in Hnd as [Hk Hnd].
  destruct j as [|j]; simpl in *.
  - injection Hj as -> ->.
    rewrite forEach_other by done.
    rewrite lookup_insert_eq. by rewrite Nat.add_0_r.
  - assert (k ≠ relayId) as Hne.
    { intros ->. apply Hk. apply list_elem_of_fmap.
      exists (relayId, relay). split; [done|]. by eapply list_elem_of_lookup_2. }
    rewrite (IH (S i) _ _ j) by done.
    rewrite entry_of_insert_ne by done.
    by replace (S i + j)%nat with (i + S j)%nat by lia.
Qed.

Lemma forEach_dom clock i relayData (st : gmap string RelayState) n :
  dom (forEach clock i relayData st n).1
  =@{gset string} dom st ∪ list_to_set (Object_keys relayData).
Proof.
  unfold Object_keys. revert i st n.
  induction relayData as [|[k r] rest IH]; intros i st n; simpl.
  - by rewrite (right_id_L ∅ (∪)).
  - rewrite IH, dom_insert_L.
    by rewrite (comm_L (∪) {[k]} (dom st)), <- (assoc_L (∪)).
Qed.

Lemma forEach_count clock i relayData (st : gmap string RelayState) n :
  (forEach clock i relayData st n).2 = (n + active_in_snapshot relayData)%nat.
Proof.
  unfold active_in_snapshot. revert i st n.
  induction relayData as [|[k r] rest IH]; intros i st n; simpl.
  - lia.
  - rewrite IH. rewrite filter_cons. simpl.
    destruct (truthy (or_else (r_status r) (VBool false))) eqn:E.
    + rewrite decide_True by done. simpl. lia.
    + rewrite decide_False by congruence. lia.
Qed.

Lemma updateRelayStates_store clock relayData (a : App) :
  relayStates (updateRelayStates clock relayData a)
  = (forEach clock 0 relayData (relayStates a) 0).1.
Proof.
  unfold updateRelayStates.
  by destruct (forEach clock 0 relayData (relayStates a) 0).
Qed.

Lemma updateRelayStates_text clock relayData (a : App) :
  activeCountText (updateRelayStates clock relayData a)
  = Some (pretty (active_in_snapshot relayData) +:+ " / 16").
Proof.
  unfold updateRelayStates.
  pose proof (forEach_count clock 0 relayData (relayStates a) 0) as H.
  destruct (forEach clock 0 relayData (relayStates a) 0) as [st n].
  simpl in *. by subst n.
Qed.

(** The store after a snapshot that mentions each of its channels, as a
    list of entries. *)
Lemma forEach_covering clock relayData (st : gmap string RelayState) n :
  NoDup (Object_keys relayData) →
  dom st ⊆ list_to_set (Object_keys relayData) →
  map_to_list (forEach clock 0 relayData st n).1
  ≡ₚ imap (λ j kv, (kv.1, entry_of st (clock j) kv.1 kv.2)) relayData.
Proof.
  intros Hnd Hdom.
  set (l := imap (λ j kv, (kv.1, entry_of st (clock j) kv.1 kv.2)) relayData).
  assert (Hfst : l.*1 = Object_keys relayData).
  { unfold l, Object_keys. rewrite fmap_imap.
    rewrite <- (imap_const fst relayData). by apply imap_ext. }
  rewrite <- (map_to_list_to_map l) by (by rewrite Hfst).
  f_equiv. apply map_eq. intros k.
  destruct (decide (k ∈ Object_keys relayData)) as [Hin|Hout].
  - apply list_elem_of_fmap in Hin as ([k' relay] & -> & Hin).
    apply list_elem_of_lookup in Hin as [j Hj]. simpl.
    rewrite (forEach_mentioned _ _ _ _ _ j k' relay) by done. symmetry.
    apply elem_of_list_to_map_1; [by rewrite Hfst|].
    apply list_elem_of_lookup. exists j. unfold l.
    rewrite list_lookup_imap, Hj. done.
  - rewrite forEach_other by done.
    rewrite (not_elem_of_list_to_map_1 l k) by (by rewrite Hfst).
    apply not_elem_of_dom. intros Hk. apply Hout.
    apply Hdom in Hk. by apply elem_of_list_to_set in Hk.
Qed.

Lemma covering_count clock relayData (st : gmap string RelayState) :
  length (filter (λ kv : string * RelayState, truthy (status kv.2) = true)
            (imap (λ j kv, (kv.1, entry_of st (clock j) kv.1 kv.2)) relayData))
  = active_in_snapshot relayData.
Proof.
  unfold active_in_snapshot. revert clock.
  induction relayData as [|[k r] rest IH]; intros clock; [done|].
  simpl. rewrite !filter_cons. simpl.
  specialize (IH (clock ∘ S)). unfold compose in *.
  destruct (truthy (or_else (r_status r) (VBool false))) eqn:E.
  - rewrite !decide_True by done. simpl. f_equal. apply IH.
  - rewrite !decide_False by congruence. apply IH.
Qed.

(** *** Initialisation *)

Lemma createRelayControls_channel (a : App) (i : nat) :
  1 ≤ i ≤ 16 →
  relayStates (createRelayControls a) !! relay_id i = Some (initial_entry i).
Proof. intros Hi. apply init_loop_channel. by apply elem_of_channels. Qed.

Lemma createRelayControls_other (a : App) (k : string) :
  k ∉ relay_ids →
  relayStates (createRelayControls a) !! k = relayStates a !! k.
Proof. intros Hk. by apply init_loop_other. Qed.

Lemma new_dom : dom (relayStates new_HomeAutomationApp) =@{gset string} list_to_set relay_ids.
Proof.
  unfold new_HomeAutomationApp, createRelayControls, with_relayStates.
  cbn [relayStates].
  rewrite init_loop_dom, dom_empty_L. by rewrite (left_id_L ∅ (∪)).
Qed.

Lemma default_name_truthy (i : nat) : truthy (VStr (default_name i)) = true.
Proof.
  unfold default_name. destruct (RELAY_NAMES !! (i - 1)%nat) as [s|]; [|done].
  destruct (String.eqb s "") eqn:E; [done|]. simpl. by rewrite E.
Qed.

Lemma new_named :
  map_Forall (λ _ e, truthy (name e) = true) (relayStates new_HomeAutomationApp).
Proof.
  intros k e Hk.
  unfold new_HomeAutomationApp, createRelayControls, with_relayStates in Hk.
  cbn [relayStates] in Hk.
  destruct (decide (k ∈ relay_id <$> channels)) as [Hin|Hout].
  - apply list_elem_of_fmap in Hin as (i & -> & Hin).
    rewrite init_loop_channel in Hk by done. injection Hk as <-.
    apply default_name_truthy.
  - rewrite init_loop_other in Hk by done. by rewrite lookup_empty in Hk.
Qed.

Lemma forEach_named clock i relayData (st : gmap string RelayState) n :
  map_Forall (λ _ e, truthy (name e) = true) st →
  map_Forall (λ _ e, truthy (name e) = true) (forEach clock i relayData st n).1.
Proof.
  revert i st n. induction relayData as [|[k r] rest IH]; intros i st n Hst; [done|].
  simpl. apply IH. apply map_Forall_insert_2; [|done].
  simpl. rewrite !truthy_or_else. simpl. by rewrite !orb_true_r.
Qed.

(** *** Event handling *)

Lemma setRelay_store reply relayId v (a : App) :
  relayStates (setRelay reply relayId v a) = relayStates a.
Proof. by destruct reply. Qed.

Lemma toggleRelay_store reply relayId (a : App) :
  relayStates (state_of (toggleRelay reply relayId a)) = relayStates a.
Proof.
  unfold toggleRelay. destruct (relayStates a !! relayId); simpl.
  - apply setRelay_store.
  - case_decide; simpl; [apply setRelay_store|done].
Qed.

Lemma setAllRelays_store reply v (a : App) :
  relayStates (setAllRelays reply v a) = relayStates a.
Proof. by destruct reply. Qed.

Lemma toggleAllRelays_store reply (a : App) :
  relayStates (toggleAllRelays reply a) = relayStates a.
Proof. by destruct reply. Qed.

Lemma handle_store (ev : Event) (a : App) :
  relayStates (state_of (handle ev a))
  = match ev with
    | RelaysValue clock (Some relayData) => (forEach clock 0 relayData (relayStates a) 0).1
    | _ => relayStates a
    end.
Proof.
  destruct ev as [|v|clock [relayData|]|[t|]|reply|reply|reply|relayId reply]; simpl;
    try done.
  - apply updateRelayStates_store.
  - by destruct (t =? 0)%Z.
  - apply setAllRelays_store.
  - apply setAllRelays_store.
  - apply toggleAllRelays_store.
  - apply toggleRelay_store.
Qed.

Lemma run_snoc (evs : list Event) (ev : Event) (a : App) :
  run (evs ++ [ev]) a = state_of (handle ev (run evs a)).
Proof. unfold run. by rewrite foldl_snoc. Qed.

Lemma handle_dom (ev : Event) (a : App) :
  dom (relayStates (state_of (handle ev a)))
  =@{gset string} dom (relayStates a) ∪ list_to_set (snapshot_keys ev).
Proof.
  rewrite handle_store.
  destruct ev as [|v|clock [relayData|]|t|reply|reply|reply|relayId reply]; simpl;
    try (by rewrite (right_id_L ∅ (∪))).
  apply forEach_dom.
Qed.

Lemma run_dom (evs : list Event) (a : App) :
  dom (relayStates (run evs a))
  =@{gset string} dom (relayStates a) ∪ list_to_set (evs ≫= snapshot_keys).
Proof.
  induction evs as [|ev evs IH] using rev_ind.
  - simpl. by rewrite (right_id_L ∅ (∪)).
  - rewrite run_snoc, handle_dom, IH, bind_app, list_to_set_app_L. simpl.
    rewrite app_nil_r. by rewrite (assoc_L (∪)).
Qed.

Lemma run_named (evs : list Event) :
  map_Forall (λ _ e, truthy (name e) = true) (relayStates (run evs new_HomeAutomationApp)).
Proof.
  induction evs as [|ev evs IH] using rev_ind; [apply new_named|].
  rewrite run_snoc, handle_store.
  destruct ev as [|v|clock [relayData|]|t|reply|reply|reply|relayId reply]; try done.
  by apply forEach_named.
Qed.

End DashboardFacts.

(** ** The dashboard of [frontend/js/app.js] *)

Module FrontendFacts.
Import Frontend.

Lemma f_forEach_count clock i relayData (st : gmap string RelayState) n :
  (forEach clock i relayData st n).2
  = (n + Dashboard.active_in_snapshot relayData)%nat.
Proof.
  unfold Dashboard.active_in_snapshot. revert i st n.
  induction relayData as [|[k r] rest IH]; intros i st n; simpl.
  - lia.
  - rewrite IH. rewrite filter_cons. simpl.
    destruct (truthy (or_else (r_status r) (VBool false))) eqn:E.
    + rewrite decide_True by done. simpl. lia.
    + rewrite decide_False by congruence. lia.
Qed.

Lemma f_updateRelayStates_text clock relayData (a : App) :
  activeCountText (updateRelayStates clock relayData a)
  = Some (pretty (Dashboard.active_in_snapshot relayData) +:+ "/16").
Proof.
  unfold updateRelayStates.
  pose proof (f_forEach_count clock 0 relayData (relayStates a) 0) as H.
  destruct (forEach clock 0 relayData (relayStates a) 0) as [st n].
  simpl in *. by subst n.
Qed.

(** The loop of [toggleAllRelays] from an object under construction. *)
Lemma f_toggleAll_loop (st : gmap string RelayState) (l : list nat)
    (o : list (string * value)) :
  (∀ i, i ∈ l → is_Some (st !! relay_id i)) →
  NoDup (Object_keys o ++ ((λ i, status_path (relay_id i)) <$> l)) →
  foldl (λ acc i,
           updates ← acc;
           currentState ← st !! relay_id i;
           Some (JS.set updates (status_path (relay_id i)) (not_ (status currentState))))
        (Some o) l
  = Some (o ++ ((λ i, (status_path (relay_id i),
                       not_ (default VUndefined (status <$> st !! relay_id i)))) <$> l)).
Proof.
  revert o. induction l as [|i l IH]; intros o Hall Hnd; simpl.
  - by rewrite app_nil_r.
  - destruct (Hall i) as [e He]; [left|]. rewrite He. simpl.
    assert (Hi : status_path (relay_id i) ∉ Object_keys o).
    { apply NoDup_app in Hnd as (_ & Hd & _). intros Hin.
      apply (Hd _ Hin). simpl. left. }
    rewrite set_fresh by done. rewrite IH.
    + by rewrite <- app_assoc.
    + intros j Hj. apply Hall. by right.
    + unfold Object_keys in *. rewrite fmap_app. simpl.
      by rewrite <- app_assoc.
Qed.

Lemma f_toggleAll_missing (st : gmap string RelayState) (l : list nat)
    (acc : option (list (string * value))) (i : nat) :
  i ∈ l → st !! relay_id i = None →
  foldl (λ acc i,
           updates ← acc;
           currentState ← st !! relay_id i;
           Some (JS.set updates (status_path (relay_id i)) (not_ (status currentState))))
        acc l
  = None.
Proof.
  intros Hin Hi. revert acc.
  induction l as [|j l IH] using rev_ind; intros acc.
  - by apply elem_of_nil in Hin.
  - rewrite foldl_snoc. apply elem_of_app in Hin as [Hin|Hin].
    + by rewrite IH.
    + apply list_elem_of_singleton in Hin as ->. rewrite Hi.
      by destruct (foldl _ acc l).
Qed.

(** On its database branch the frontend sends the same batch as
    [js/app.js], provided the 16 entries are there. *)
Lemma f_toggleAll_database (reply : Reply) (a : App) :
  apiConnected a = false →
  (∀ i, 1 ≤ i ≤ 16 → is_Some (relayStates a !! relay_id i)) →
  sent (toggleAllRelays reply a)
  = sent a ++ [Db (DbUpdate ((λ i, (status_path (relay_id i),
                 not_ (default VUndefined (status <$> relayStates a !! relay_id i))))
               <$> channels))]
  ∧ relayStates (toggleAllRelays reply a) = relayStates a.
Proof.
  intros Hapi Hall. unfold toggleAllRelays, toggleAll_updates. rewrite Hapi.
  change (seq 1 RELAY_COUNT) with channels.
  rewrite f_toggleAll_loop.
  - by destruct reply.
  - intros i Hi. apply Hall. by apply elem_of_channels.
  - apply status_paths_NoDup.
Qed.

(** With an entry missing, the loop throws inside the [try]: nothing is
    sent and the failure is reported. *)
Lemma f_toggleAll_missing_entry (reply : Reply) (a : App) (i : nat) :
  apiConnected a = false →
  1 ≤ i ≤ 16 → relayStates a !! relay_id i = None →
  toggleAllRelays reply a = toggleAll_failed a.
Proof.
  intros Hapi Hi Hnone. unfold toggleAllRelays, toggleAll_updates. rewrite Hapi.
  change (seq 1 RELAY_COUNT) with channels.
  rewrite (f_toggleAll_missing _ _ _ i); [done| |done].
  by apply elem_of_channels.
Qed.

(** Behind the REST server the inversion is left to the server: one
    request, no mapping. *)
Lemma f_toggleAll_api (reply : Reply) (a : App) :
  apiConnected a = true →
  sent (toggleAllRelays reply a) = sent a ++ [Api "/relays/toggle-all" (Some "POST") None]
  ∧ relayStates (toggleAllRelays reply a) = relayStates a.
Proof.
  intros Hapi. unfold toggleAllRelays. rewrite Hapi. by destruct reply.
Qed.

End FrontendFacts.

(** * The claims *)

Import Dashboard DashboardFacts.

(** ** C1 *)

(** C1, as stated, fails: the last-changed time moves although the
    delivered state is the recorded one.  The snapshot
    [{relay_3: {status: true}}] applied at time 1000 turns the channel on;
    applied again at time 2000 it leaves the channel on and stamps it
    2000. *)
Lemma redelivery_restamps :
  let relayData := [("relay_3", mkRelayData (VBool true) VUndefined VUndefined)] in
  let a1 := updateRelayStates (λ _, 1000%Z) relayData new_HomeAutomationApp in
  let a2 := updateRelayStates (λ _, 2000%Z) relayData a1 in
  relayStates a1 !! "relay_3"
    = Some (mkRelayState (VBool true) (VStr "Bedroom AC") (Some 1000%Z)) ∧
  relayStates a2 !! "relay_3"
    = Some (mkRelayState (VBool true) (VStr "Bedroom AC") (Some 2000%Z)) ∧
  status <$> relayStates a2 !! "relay_3" = status <$> relayStates a1 !! "relay_3" ∧
  lastChanged <$> relayStates a2 !! "relay_3" ≠ lastChanged <$> relayStates a1 !! "relay_3".
Proof. repeat split; vm_compute; [reflexivity..|discriminate]. Qed.

(** C1, amended: applying a snapshot entry for a channel replaces the
    channel's state by the delivered one ([status || false]) and sets its
    last-changed time to the time read at that entry, whether or not the
    state differs from the recorded one; applying the same snapshot twice
    in a row gives the same state both times and the second call's time as
    the time stamp. *)
Theorem snapshot_entry_replaced_and_stamped
    (clock1 clock2 : nat → Z) (relayData : list (string * RelayData)) (a : App)
    (j : nat) (relayId : string) (relay : RelayData) :
  NoDup (Object_keys relayData) →
  relayData !! j = Some (relayId, relay) →
  let a1 := updateRelayStates clock1 relayData a in
  let a2 := updateRelayStates clock2 relayData a1 in
  (status <$> relayStates a1 !! relayId = Some (or_else (r_status relay) (VBool false)) ∧
   lastChanged <$> relayStates a1 !! relayId = Some (Some (clock1 j))) ∧
  (status <$> relayStates a2 !! relayId = status <$> relayStates a1 !! relayId ∧
   lastChanged <$> relayStates a2 !! relayId = Some (Some (clock2 j))).
Proof.
  intros Hnd Hj a1 a2. unfold a2, a1.
  rewrite !updateRelayStates_store.
  rewrite !(forEach_mentioned _ 0 relayData _ 0 j relayId relay) by done.
  done.
Qed.

Lemma snapshot_entry_replaced_and_stamped_witness :
  let relayData := [("relay_3", mkRelayData (VBool true) VUndefined VUndefined);
                    ("relay_4", mkRelayData (VNum 0) (VStr "Pump") VUndefined)] in
  let a1 := updateRelayStates (λ i, 1000 + Z.of_nat i)%Z relayData new_HomeAutomationApp in
  let a2 := updateRelayStates (λ i, 2000 + Z.of_nat i)%Z relayData a1 in
  (NoDup (Object_keys relayData) ∧
   relayData !! 1%nat = Some ("relay_4", mkRelayData (VNum 0) (VStr "Pump") VUndefined)) ∧
  (status <$> relayStates a1 !! "relay_4" = Some (VBool false) ∧
   lastChanged <$> relayStates a1 !! "relay_4" = Some (Some 1001%Z)) ∧
  (status <$> relayStates a2 !! "relay_4" = status <$> relayStates a1 !! "relay_4" ∧
   lastChanged <$> relayStates a2 !! "relay_4" = Some (Some 2001%Z)).
Proof.
  intros relayData a1 a2.
  assert (Hnd : NoDup (Object_keys relayData)).
  { apply (bool_decide_unpack _). vm_compute. exact I. }
  split; [split; [exact Hnd|reflexivity]|].
  exact (snapshot_entry_replaced_and_stamped
           (λ i, 1000 + Z.of_nat i)%Z (λ i, 2000 + Z.of_nat i)%Z relayData
           new_HomeAutomationApp 1 "relay_4"
           (mkRelayData (VNum 0) (VStr "Pump") VUndefined) Hnd eq_refl).
Defined.

(** ** C2 *)

(** C2, as stated, fails: a snapshot that mentions an identifier outside
    the initialised set adds an entry.  From the 16 entries of a fresh
    instance, [{relay_17: {status: true}}] makes 17. *)
Lemma unknown_channel_adds_entry :
  let relayData := [("relay_17", mkRelayData (VBool true) VUndefined VUndefined)] in
  let a := run [RelaysValue (λ _, 1000%Z) (Some relayData)] new_HomeAutomationApp in
  (size (relayStates new_HomeAutomationApp) = 16 ∧
   relayStates new_HomeAutomationApp !! "relay_17" = None) ∧
  (size (relayStates a) = 17 ∧
   relayStates a !! "relay_17"
     = Some (mkRelayState (VBool true) (VStr "Device 17") (Some 1000%Z))) ∧
  dom (relayStates a) ≠ dom (relayStates new_HomeAutomationApp).
Proof.
  repeat split; try (vm_compute; reflexivity).
  intros Heq. apply (f_equal size) in Heq. rewrite !size_dom in Heq.
  vm_compute in Heq. discriminate Heq.
Qed.

(** C2, amended: after every sequence of operations on a fresh instance
    the store holds one entry for each of the 16 initialised identifiers
    and one for each further identifier that a delivered snapshot
    mentioned, under pairwise-distinct identifiers; no operation removes
    an entry, and toggles and bulk writes leave the set of entries as it
    is.  While the snapshots mention initialised identifiers only, the
    store holds exactly the 16 entries. *)
Theorem store_entries (evs : list Event) :
  let a := run evs new_HomeAutomationApp in
  (dom (relayStates a)
     =@{gset string} list_to_set relay_ids ∪ list_to_set (evs ≫= snapshot_keys)) ∧
  NoDup (map_to_list (relayStates a)).*1 ∧
  (∀ ev, dom (relayStates a) ⊆ dom (relayStates (state_of (handle ev a)))) ∧
  (∀ ev, snapshot_keys ev = [] →
         relayStates (state_of (handle ev a)) = relayStates a) ∧
  (evs ≫= snapshot_keys ⊆ relay_ids →
   size (relayStates a) = 16 ∧ dom (relayStates a) =@{gset string} list_to_set relay_ids).
Proof.
  intros a. unfold a.
  assert (Hdom := run_dom evs new_HomeAutomationApp). rewrite new_dom in Hdom.
  split; [exact Hdom|]. split; [apply NoDup_fst_map_to_list|].
  split; [|split].
  - intros ev. rewrite handle_dom. apply union_subseteq_l.
  - intros ev Hev. rewrite handle_store.
    destruct ev as [|v|clock [relayData|]|t|reply|reply|reply|relayId reply]; try done.
    simpl in Hev. apply fmap_nil_inv in Hev. by subst relayData.
  - intros Hsub.
    assert (dom (relayStates (run evs new_HomeAutomationApp))
            =@{gset string} list_to_set relay_ids) as Heq.
    { rewrite Hdom, (comm_L (∪)). apply subseteq_union_1_L.
      intros k Hk. apply elem_of_list_to_set in Hk.
      apply elem_of_list_to_set. by apply Hsub. }
    split; [|exact Heq].
    rewrite <- size_dom, Heq.
    rewrite size_list_to_set by apply relay_ids_NoDup. reflexivity.
Qed.

Lemma store_entries_witness :
  let on := mkRelayData (VBool true) VUndefined VUndefined in
  let evs := [RelaysValue (λ _, 1000%Z) (Some [("relay_2", on); ("relay_9", on)]);
              ToggleChange "relay_2" Ack; ToggleAllClick Reject] in
  evs ≫= snapshot_keys ⊆ relay_ids ∧
  size (relayStates (run evs new_HomeAutomationApp)) = 16.
Proof.
  intros on evs.
  assert (Hsub : evs ≫= snapshot_keys ⊆ relay_ids).
  { intros k Hk. vm_compute in Hk.
    apply elem_of_cons in Hk as [->|Hk];
      [|apply elem_of_cons in Hk as [->|Hk]; [|by apply elem_of_nil in Hk]].
    - apply (list_elem_of_fmap_2 relay_id channels 2). apply elem_of_channels. lia.
    - apply (list_elem_of_fmap_2 relay_id channels 9). apply elem_of_channels. lia. }
  split; [exact Hsub|].
  exact (proj1 (proj2 (proj2 (proj2 (proj2 (store_entries evs)))) Hsub)).
Defined.

(** ** C3 *)

(** C3, as stated, fails: a second [createRelayControls] erases the live
    state of a channel that a snapshot has updated.  After
    [{relay_3: {status: true, name: 'Desk Lamp'}}] the channel is on and
    renamed; after re-initialisation it is off, carries its default name and
    has no time stamp. *)
Lemma reinit_erases_live_state :
  let relayData := [("relay_3", mkRelayData (VBool true) (VStr "Desk Lamp") VUndefined)] in
  let a1 := updateRelayStates (λ _, 1000%Z) relayData new_HomeAutomationApp in
  let a2 := createRelayControls a1 in
  relayStates a1 !! "relay_3"
    = Some (mkRelayState (VBool true) (VStr "Desk Lamp") (Some 1000%Z)) ∧
  relayStates a2 !! "relay_3"
    = Some (mkRelayState (VBool false) (VStr "Bedroom AC") None) ∧
  relayStates a2 !! "relay_3" ≠ relayStates a1 !! "relay_3".
Proof. repeat split; vm_compute; [reflexivity..|discriminate]. Qed.

(** C3, amended: invoking initialize again resets every one of the 16
    channels to off, default name and no time stamp, whether or not a
    snapshot has updated it, and leaves entries under other identifiers as
    they are; invoking it twice in a row gives what invoking it once
    gives.  Both variants of the class behave so. *)
Theorem createRelayControls_resets_all (a : App) (fa : Frontend.App) :
  ((∀ i, 1 ≤ i ≤ 16 →
         relayStates (createRelayControls a) !! relay_id i
         = Some (mkRelayState (VBool false) (VStr (default_name i)) None)) ∧
   (∀ k, k ∉ relay_ids →
         relayStates (createRelayControls a) !! k = relayStates a !! k) ∧
   createRelayControls (createRelayControls a) = createRelayControls a) ∧
  ((∀ i, 1 ≤ i ≤ 16 →
         Frontend.relayStates (Frontend.createRelayControls fa) !! relay_id i
         = Some (Frontend.mkRelayState (VBool false) (VStr (default_name i)) None (VNum 0))) ∧
   (∀ k, k ∉ relay_ids →
         Frontend.relayStates (Frontend.createRelayControls fa) !! k
         = Frontend.relayStates fa !! k) ∧
   Frontend.createRelayControls (Frontend.createRelayControls fa)
   = Frontend.createRelayControls fa).
Proof.
  split; (split; [|split]).
  - intros i Hi. by apply createRelayControls_channel.
  - intros k Hk. by apply createRelayControls_other.
  - unfold createRelayControls, with_relayStates. cbn [relayStates deviceOnline
      lastUpdate activeCountText sent notifications console].
    f_equal. apply (init_loop_idem initial_entry channels).
  - intros i Hi. apply (init_loop_channel Frontend.initial_entry).
    by apply elem_of_channels.
  - intros k Hk. by apply (init_loop_other Frontend.initial_entry).
  - unfold Frontend.createRelayControls, Frontend.with_relayStates.
    cbn [Frontend.relayStates Frontend.deviceOnline Frontend.apiConnected
         Frontend.activeCountText Frontend.sent Frontend.notifications
         Frontend.console].
    f_equal. apply (init_loop_idem Frontend.initial_entry).
Qed.

Lemma createRelayControls_resets_all_witness :
  let relayData := [("relay_3", mkRelayData (VBool true) (VStr "Desk Lamp") VUndefined);
                    ("relay_17", mkRelayData (VBool true) VUndefined VUndefined)] in
  let a := updateRelayStates (λ _, 1000%Z) relayData new_HomeAutomationApp in
  (1 ≤ 3 ≤ 16 ∧ "relay_17" ∉ relay_ids) ∧
  relayStates (createRelayControls a) !! relay_id 3
    = Some (mkRelayState (VBool false) (VStr (default_name 3)) None) ∧
  relayStates (createRelayControls a) !! "relay_17" = relayStates a !! "relay_17".
Proof.
  intros relayData a.
  assert (H3 : 1 ≤ 3 ≤ 16) by lia.
  assert (H17 : "relay_17" ∉ relay_ids).
  { apply (bool_decide_unpack _). vm_compute. exact I. }
  destruct (createRelayControls_resets_all a Frontend.new_HomeAutomationApp)
    as [(Hreset & Hframe & _) _].
  split; [split; [exact H3|exact H17]|].
  split; [exact (Hreset 3 H3)|exact (Hframe "relay_17" H17)].
Defined.

(** ** C4 *)

(** C4: a toggle intent on a channel with a cached entry returns after
    exactly one call to the database, a [set] on that channel's status
    path [home_automation/devices/pico_w_001/relays/<id>/status] with the
    negation of the cached state, with nothing read from the database
    before it; for a channel that is on, the value is [false].  The store
    is as before. *)
Theorem toggle_writes_negation (reply : Reply) (relayId : string) (a : App) (e : RelayState) :
  relayStates a !! relayId = Some e →
  ∃ a',
    toggleRelay reply relayId a = Returned a' ∧
    sent a'
    = sent a ++ [DbSet ("home_automation/devices/pico_w_001/relays/" +:+ relayId +:+ "/status")
                       (VBool (negb (truthy (status e))))] ∧
    (truthy (status e) = true →
     sent a'
     = sent a ++ [DbSet ("home_automation/devices/pico_w_001/relays/" +:+ relayId +:+ "/status")
                        (VBool false)]) ∧
    relayStates a' = relayStates a.
Proof.
  intros He. unfold toggleRelay. rewrite He.
  eexists. split; [reflexivity|].
  rewrite <- status_path_literal.
  assert (sent (setRelay reply relayId (not_ (status e)) a)
          = sent a ++ [DbSet (status_path relayId) (VBool (negb (truthy (status e))))])
    as Hsent by (by destruct reply).
  split; [exact Hsent|]. split; [|apply setRelay_store].
  intros Hon. rewrite Hsent. by rewrite Hon.
Qed.

Lemma toggle_writes_negation_witness :
  let relayData := [("relay_3", mkRelayData (VBool true) VUndefined VUndefined)] in
  let a := updateRelayStates (λ _, 1000%Z) relayData new_HomeAutomationApp in
  let e := mkRelayState (VBool true) (VStr "Bedroom AC") (Some 1000%Z) in
  relayStates a !! "relay_3" = Some e ∧
  ∃ a',
    toggleRelay Ack "relay_3" a = Returned a' ∧
    sent a'
    = [DbSet "home_automation/devices/pico_w_001/relays/relay_3/status" (VBool false)] ∧
    relayStates a' = relayStates a.
Proof.
  intros relayData a e.
  assert (He : relayStates a !! "relay_3" = Some e) by (vm_compute; reflexivity).
  split; [exact He|].
  destruct (toggle_writes_negation Ack "relay_3" a e He) as (a' & Hret & _ & Hon & Hst).
  exists a'. split; [exact Hret|]. split; [exact (Hon eq_refl)|exact Hst].
Defined.

(** ** C5 *)

(** C5, as stated, fails on the frontend variant: once its REST server
    has answered the status check, a toggle-all intent sends one [POST] to
    [/relays/toggle-all] and no batched write, so no mapping at all. *)
Lemma frontend_toggleAll_behind_api :
  let fa := Frontend.checkApiConnection Ack Frontend.new_HomeAutomationApp in
  Frontend.apiConnected fa = true ∧
  Frontend.sent (Frontend.toggleAllRelays Ack fa)
  = [Frontend.Api "/status" None None;
     Frontend.Api "/relays/toggle-all" (Some "POST") None] ∧
  (∀ updates, Frontend.Db (DbUpdate updates) ∉ Frontend.sent (Frontend.toggleAllRelays Ack fa)).
Proof.
  intros fa.
  assert (Hsent : Frontend.sent (Frontend.toggleAllRelays Ack fa)
                  = [Frontend.Api "/status" None None;
                     Frontend.Api "/relays/toggle-all" (Some "POST") None])
    by (vm_compute; reflexivity).
  split; [reflexivity|]. split; [exact Hsent|].
  intros updates Hin. rewrite Hsent in Hin.
  apply elem_of_cons in Hin as [Hin|Hin]; [discriminate Hin|].
  apply elem_of_cons in Hin as [Hin|Hin]; [discriminate Hin|].
  by apply elem_of_nil in Hin.
Qed.

(** C5, amended: in [js/app.js], whatever the cached states, a toggle-all
    intent makes exactly one call to the database, an [update] whose
    mapping has the 16 status paths
    [home_automation/devices/pico_w_001/relays/relay_<i>/status], each
    once and in channel order, each bound to the negation of that
    channel's cached state (a channel without an entry counts as off);
    the store is as before.  The frontend variant sends the same batch
    when its REST server is not connected and the 16 channels have their
    entries; when the REST server is connected it sends one [POST] to
    [/relays/toggle-all] without a mapping and leaves the inversion to the
    server. *)
Theorem toggleAll_batched_write (reply : Reply) (a : App) (fa : Frontend.App) :
  let path (i : nat) :=
    "home_automation/devices/pico_w_001/relays/relay_" +:+ pretty i +:+ "/status" in
  let updates :=
    (λ i, (path i, VBool (negb (truthy (cached_status (relayStates a) (relay_id i))))))
    <$> seq 1 16 in
  (sent (toggleAllRelays reply a) = sent a ++ [DbUpdate updates] ∧
   relayStates (toggleAllRelays reply a) = relayStates a ∧
   Object_keys updates = [
        "home_automation/devices/pico_w_001/relays/relay_1/status";
        "home_automation/devices/pico_w_001/relays/relay_2/status";
        "home_automation/devices/pico_w_001/relays/relay_3/status";
        "home_automation/devices/pico_w_001/relays/relay_4/status";
        "home_automation/devices/pico_w_001/relays/relay_5/status";
        "home_automation/devices/pico_w_001/relays/relay_6/status";
        "home_automation/devices/pico_w_001/relays/relay_7/status";
        "home_automation/devices/pico_w_001/relays/relay_8/status";
        "home_automation/devices/pico_w_001/relays/relay_9/status";
        "home_automation/devices/pico_w_001/relays/relay_10/status";
        "home_automation/devices/pico_w_001/relays/relay_11/status";
        "home_automation/devices/pico_w_001/relays/relay_12/status";
        "home_automation/devices/pico_w_001/relays/relay_13/status";
        "home_automation/devices/pico_w_001/relays/relay_14/status";
        "home_automation/devices/pico_w_001/relays/relay_15/status";
        "home_automation/devices/pico_w_001/relays/relay_16/status" ] ∧
   NoDup (Object_keys updates) ∧
   length updates = 16 ∧
   (∀ i e, 1 ≤ i ≤ 16 → relayStates a !! ("relay_" +:+ pretty i) = Some e →
           get updates (path i) = Some (VBool (negb (truthy (status e))))) ∧
   (∀ i, 1 ≤ i ≤ 16 → relayStates a !! ("relay_" +:+ pretty i) = None →
         get updates (path i) = Some (VBool true))) ∧
  (Frontend.apiConnected fa = false →
   (∀ i, 1 ≤ i ≤ 16 → is_Some (Frontend.relayStates fa !! ("relay_" +:+ pretty i))) →
   Frontend.sent (Frontend.toggleAllRelays reply fa)
   = Frontend.sent fa
     ++ [Frontend.Db (DbUpdate
           ((λ i, (path i,
                   VBool (negb (truthy
                     (default VUndefined
                        (Frontend.status <$> Frontend.relayStates fa !! ("relay_" +:+ pretty i)))))))
            <$> seq 1 16))] ∧
   Frontend.relayStates (Frontend.toggleAllRelays reply fa) = Frontend.relayStates fa) ∧
  (Frontend.apiConnected fa = true →
   Frontend.sent (Frontend.toggleAllRelays reply fa)
   = Frontend.sent fa ++ [Frontend.Api "/relays/toggle-all" (Some "POST") None] ∧
   Frontend.relayStates (Frontend.toggleAllRelays reply fa) = Frontend.relayStates fa).
Proof.
  intros path updates.
  assert (Hform : updates
                  = (λ i, (status_path (relay_id i),
                           VBool (negb (truthy (cached_status (relayStates a) (relay_id i))))))
                    <$> channels) by reflexivity.
  assert (Hkeys : Object_keys updates = path <$> seq 1 16).
  { unfold updates, Object_keys. by rewrite <- list_fmap_compose. }
  assert (Hupd : toggleAll_updates (relayStates a) = updates).
  { rewrite Hform. unfold toggleAll_updates.
    rewrite (foldl_set_fresh (λ i, status_path (relay_id i))
               (λ i, not_ (cached_status (relayStates a) (relay_id i)))).
    - done.
    - apply status_paths_NoDup. }
  assert (Hget : ∀ i, 1 ≤ i ≤ 16 →
            get updates (path i)
            = Some (VBool (negb (truthy (cached_status (relayStates a) (relay_id i)))))).
  { intros i Hi. rewrite Hform.
    apply (get_fmap_pair (λ i, status_path (relay_id i))
             (λ i, VBool (negb (truthy (cached_status (relayStates a) (relay_id i)))))).
    - intros x y H. by apply (inj status_path), (inj relay_id) in H.
    - by apply elem_of_channels. }
  split; [|split].
  - split; [|split; [|split; [|split; [|split; [|split]]]]].
    + unfold toggleAllRelays. rewrite Hupd. by destruct reply.
    + apply toggleAllRelays_store.
    + rewrite Hkeys. apply status_paths_literal.
    + rewrite Hkeys. apply status_paths_NoDup.
    + unfold updates. by rewrite length_fmap.
    + intros i e Hi He. rewrite Hget by done.
      unfold cached_status. change (relay_id i) with ("relay_" +:+ pretty i).
      rewrite He. by rewrite truthy_or_else_false.
    + intros i Hi He. rewrite Hget by done.
      unfold cached_status. change (relay_id i) with ("relay_" +:+ pretty i).
      by rewrite He.
  - intros Hapi Hall. by apply FrontendFacts.f_toggleAll_database.
  - intros Hapi. by apply FrontendFacts.f_toggleAll_api.
Qed.

(** The conceptual case of the specification: channels on, off, on are
    written off, on, off. *)
Lemma toggleAll_batched_write_witness :
  let on := mkRelayData (VBool true) VUndefined VUndefined in
  let a := updateRelayStates (λ _, 1000%Z) [("relay_1", on); ("relay_3", on)]
             new_HomeAutomationApp in
  let fa := Frontend.new_HomeAutomationApp in
  (∃ updates,
     sent (toggleAllRelays Ack a) = sent a ++ [DbUpdate updates] ∧
     take 3 updates
     = [("home_automation/devices/pico_w_001/relays/relay_1/status", VBool false);
        ("home_automation/devices/pico_w_001/relays/relay_2/status", VBool true);
        ("home_automation/devices/pico_w_001/relays/relay_3/status", VBool false)]) ∧
  (Frontend.apiConnected fa = false ∧
   ∃ updates,
     Frontend.sent (Frontend.toggleAllRelays Ack fa) = [Frontend.Db (DbUpdate updates)] ∧
     take 2 updates
     = [("home_automation/devices/pico_w_001/relays/relay_1/status", VBool true);
        ("home_automation/devices/pico_w_001/relays/relay_2/status", VBool true)]).
Proof.
  intros on a fa.
  destruct (toggleAll_batched_write Ack a fa) as ((Hsent & _) & Hdb & _).
  split.
  - eexists. split; [exact Hsent|]. vm_compute. reflexivity.
  - split; [reflexivity|].
    destruct (Hdb eq_refl) as [Hf _].
    { intros i Hi. exists (Frontend.initial_entry i).
      apply (init_loop_channel Frontend.initial_entry). by apply elem_of_channels. }
    eexists. split; [exact Hf|]. vm_compute. reflexivity.
Defined.

(** ** C6 *)

Lemma setRelay_rejected (relayId : string) (v : value) (a : App) :
  reported_failure (DbSet (status_path relayId) v) ("Failed to control " +:+ relayId)
                   a (setRelay Reject relayId v a).
Proof. by repeat split. Qed.

(** C6: when the write of a single-channel or batch intent is rejected,
    the store is afterwards what it was before; the intent made exactly
    one call (nothing is retried), an error notification is shown, and
    the only other change is to the console (no field holds the intent for
    later). *)
Theorem rejected_write_keeps_store (a : App) :
  (∀ relayId v,
     reported_failure (DbSet (status_path relayId) v) ("Failed to control " +:+ relayId)
                      a (setRelay Reject relayId v a)) ∧
  (∀ relayId e, relayStates a !! relayId = Some e →
     ∃ a', toggleRelay Reject relayId a = Returned a' ∧
           reported_failure (DbSet (status_path relayId) (not_ (status e)))
                            ("Failed to control " +:+ relayId) a a') ∧
  (∀ v, reported_failure (DbUpdate (setAll_updates v)) "Failed to control all relays"
                         a (setAllRelays Reject v a)) ∧
  reported_failure (DbUpdate (toggleAll_updates (relayStates a)))
                   "Failed to toggle all relays" a (toggleAllRelays Reject a).
Proof.
  split; [|split; [|split]].
  - intros relayId v. apply setRelay_rejected.
  - intros relayId e He. unfold toggleRelay. rewrite He.
    eexists. split; [reflexivity|]. apply setRelay_rejected.
  - intros v. by repeat split.
  - by repeat split.
Qed.

Lemma rejected_write_keeps_store_witness :
  let a := new_HomeAutomationApp in
  relayStates a !! "relay_3" = Some (initial_entry 3) ∧
  ∃ a', toggleRelay Reject "relay_3" a = Returned a' ∧
        relayStates a' = relayStates a ∧
        sent a' = [DbSet (status_path "relay_3") (VBool true)] ∧
        notifications a' = [("Failed to control relay_3", "error")].
Proof.
  intros a.
  assert (He : relayStates a !! "relay_3" = Some (initial_entry 3))
    by (vm_compute; reflexivity).
  split; [exact He|].
  destruct (rejected_write_keeps_store a) as (_ & Htoggle & _).
  destruct (Htoggle "relay_3" (initial_entry 3) He)
    as (a' & Hret & Hst & _ & _ & _ & Hsent & Hnote).
  exists a'. split; [exact Hret|]. split; [exact Hst|].
  split; [exact Hsent|exact Hnote].
Defined.

(** ** C7 *)

(** C7: in every state the instance can reach, applying a snapshot leaves
    the entry of a channel it does not mention as it is (state, name and
    time stamp); for a mentioned channel with an entry, the name becomes
    the delivered name when that is non-empty (truthy), and stays the
    cached name otherwise. *)
Theorem snapshot_frame (evs : list Event) (clock : nat → Z)
    (relayData : list (string * RelayData)) (relayId : string) :
  let a := run evs new_HomeAutomationApp in
  let a' := updateRelayStates clock relayData a in
  (relayId ∉ Object_keys relayData →
   relayStates a' !! relayId = relayStates a !! relayId) ∧
  (∀ relay e,
     NoDup (Object_keys relayData) →
     (relayId, relay) ∈ relayData →
     relayStates a !! relayId = Some e →
     name <$> relayStates a' !! relayId
     = Some (if truthy (r_name relay) then r_name relay else name e)).
Proof.
  intros a a'. unfold a'. rewrite updateRelayStates_store. split.
  - intros Hout. by apply forEach_other.
  - intros relay e Hnd Hin He.
    apply list_elem_of_lookup in Hin as [j Hj].
    rewrite (forEach_mentioned _ 0 relayData _ 0 j relayId relay) by done.
    simpl. f_equal. unfold cached_name. rewrite He.
    assert (truthy (name e) = true) as Hname by (by apply (run_named evs relayId e)).
    unfold or_else. by rewrite Hname.
Qed.

Lemma snapshot_frame_witness :
  let evs := [RelaysValue (λ _, 500%Z)
                (Some [("relay_4", mkRelayData (VBool true) (VStr "Pump") VUndefined)])] in
  let a := run evs new_HomeAutomationApp in
  let relayData := [("relay_3", mkRelayData (VBool true) (VStr "") VUndefined)] in
  let a' := updateRelayStates (λ _, 1000%Z) relayData a in
  (relayStates a !! "relay_4"
     = Some (mkRelayState (VBool true) (VStr "Pump") (Some 500%Z)) ∧
   relayStates a' !! "relay_4" = relayStates a !! "relay_4") ∧
  (relayStates a !! "relay_3"
     = Some (mkRelayState (VBool false) (VStr "Bedroom AC") None) ∧
   name <$> relayStates a' !! "relay_3" = Some (VStr "Bedroom AC")).
Proof.
  intros evs a relayData a'. split; split.
  - vm_compute. reflexivity.
  - apply (snapshot_frame evs (λ _, 1000%Z) relayData "relay_4").
    intros Hin. apply list_elem_of_singleton in Hin. discriminate Hin.
  - vm_compute. reflexivity.
  - apply (proj2 (snapshot_frame evs (λ _, 1000%Z) relayData "relay_3")
             (mkRelayData (VBool true) (VStr "") VUndefined)
             (mkRelayState (VBool false) (VStr "Bedroom AC") None)).
    + apply NoDup_singleton.
    + apply list_elem_of_singleton. reflexivity.
    + vm_compute. reflexivity.
Defined.

(** ** C8 *)

(** C8: an event changes the store only if it is the delivery of a relay
    snapshot; a toggle, set-all or toggle-all intent leaves the store as it
    is however its write settles, and the written state shows in the store
    once the snapshot that echoes it is applied. *)
Theorem store_changes_only_on_snapshot (ev : Event) (a : App) :
  (relayStates (state_of (handle ev a)) = relayStates a ∨
   ∃ clock relayData, ev = RelaysValue clock (Some relayData)) ∧
  (∀ reply relayId, relayStates (state_of (toggleRelay reply relayId a)) = relayStates a) ∧
  (∀ reply v, relayStates (setAllRelays reply v a) = relayStates a) ∧
  (∀ reply, relayStates (toggleAllRelays reply a) = relayStates a) ∧
  (∀ reply relayId e clock,
     relayStates a !! relayId = Some e →
     let a' := state_of (toggleRelay reply relayId a) in
     let echo := [(relayId, mkRelayData (not_ (status e)) VUndefined VUndefined)] in
     status <$> relayStates a' !! relayId = Some (status e) ∧
     status <$> relayStates (updateRelayStates clock echo a') !! relayId
     = Some (not_ (status e))).
Proof.
  split; [|split; [|split; [|split]]].
  - rewrite handle_store.
    destruct ev as [|v|clock [relayData|]|t|reply|reply|reply|relayId reply];
      try (by left).
    right. by exists clock, relayData.
  - intros. apply toggleRelay_store.
  - intros. apply setAllRelays_store.
  - intros. apply toggleAllRelays_store.
  - intros reply relayId e clock He a' echo. unfold a'.
    rewrite updateRelayStates_store, toggleRelay_store, He. split; [done|].
    unfold echo. simpl. rewrite lookup_insert_eq. simpl. f_equal.
    unfold or_else, not_. simpl. by destruct (truthy (status e)).
Qed.

Lemma store_changes_only_on_snapshot_witness :
  let a := new_HomeAutomationApp in
  let a' := state_of (toggleRelay Ack "relay_3" a) in
  let echo := [("relay_3", mkRelayData (VBool true) VUndefined VUndefined)] in
  relayStates a !! "relay_3" = Some (initial_entry 3) ∧
  status <$> relayStates a' !! "relay_3" = Some (VBool false) ∧
  status <$> relayStates (updateRelayStates (λ _, 1000%Z) echo a') !! "relay_3"
  = Some (VBool true).
Proof.
  intros a a' echo.
  assert (He : relayStates a !! "relay_3" = Some (initial_entry 3))
    by (vm_compute; reflexivity).
  split; [exact He|].
  destruct (store_changes_only_on_snapshot SignedIn a) as (_ & _ & _ & _ & Hecho).
  exact (Hecho Ack "relay_3" (initial_entry 3) (λ _, 1000%Z) He).
Defined.

(** ** C9 *)

(** C9, as stated, fails: the count is taken over the snapshot, not over
    the store.  After [{relay_1: {status: true}}] and then
    [{relay_2: {status: true}}] two channels are on in the store and the
    display reads 1. *)
Lemma active_count_ignores_unmentioned :
  let on := mkRelayData (VBool true) VUndefined VUndefined in
  let a := run [RelaysValue (λ _, 1000%Z) (Some [("relay_1", on)]);
                RelaysValue (λ _, 2000%Z) (Some [("relay_2", on)])]
               new_HomeAutomationApp in
  activeCountText a = Some "1 / 16" ∧
  active_in_store (relayStates a) = 2 ∧
  activeCountText a ≠ Some (pretty (active_in_store (relayStates a)) +:+ " / 16").
Proof. repeat split; vm_compute; [reflexivity..|discriminate]. Qed.

(** C9, amended: after a snapshot is applied, the reported active count
    is the number of channels mentioned in that snapshot whose delivered
    state is on (out of 16), in both variants of the class; it is the
    number of channels on in the whole store when the snapshot mentions
    every channel of the store. *)
Theorem active_count_of_snapshot (clock : nat → Z)
    (relayData : list (string * RelayData)) (a : App) (fa : Frontend.App) :
  let a' := updateRelayStates clock relayData a in
  activeCountText a' = Some (pretty (active_in_snapshot relayData) +:+ " / 16") ∧
  Frontend.activeCountText (Frontend.updateRelayStates clock relayData fa)
  = Some (pretty (active_in_snapshot relayData) +:+ "/16") ∧
  (NoDup (Object_keys relayData) →
   (∀ k, is_Some (relayStates a !! k) → k ∈ Object_keys relayData) →
   active_in_store (relayStates a') = active_in_snapshot relayData).
Proof.
  intros a'. split; [apply updateRelayStates_text|].
  split; [apply FrontendFacts.f_updateRelayStates_text|].
  intros Hnd Hcov. unfold a'. rewrite updateRelayStates_store.
  unfold active_in_store.
  rewrite (forEach_covering clock relayData (relayStates a) 0 Hnd).
  - apply covering_count.
  - intros k Hk. apply elem_of_dom in Hk. apply elem_of_list_to_set. by apply Hcov.
Qed.

Lemma active_count_of_snapshot_witness :
  let relayData :=
    (λ i, (relay_id i, mkRelayData (VBool (Nat.even i)) VUndefined VUndefined))
    <$> channels in
  let a := updateRelayStates (λ _, 1000%Z) relayData new_HomeAutomationApp in
  activeCountText a = Some "8 / 16" ∧
  active_in_store (relayStates a) = 8.
Proof.
  intros relayData a.
  destruct (active_count_of_snapshot (λ _, 1000%Z) relayData new_HomeAutomationApp
              Frontend.new_HomeAutomationApp) as (Htext & _ & Hstore).
  split; [exact Htext|]. apply Hstore.
  - apply (bool_decide_unpack _). vm_compute. exact I.
  - intros k Hk. apply elem_of_dom in Hk. rewrite new_dom in Hk.
    apply elem_of_list_to_set in Hk.
    unfold relayData, Object_keys. rewrite <- list_fmap_compose. exact Hk.
Defined.

(** ** C10 *)

(** C10, as stated, fails on [js/app.js]: the store is a plain object, so
    an identifier without entry that names a property inherited from
    [Object.prototype] is found.  For [constructor] the lookup yields the
    function [Object], whose [status] is [undefined]: the toggle does not
    fault and writes [true] under that identifier. *)
Lemma toggle_inherited_key_writes :
  let a := new_HomeAutomationApp in
  relayStates a !! "constructor" = None ∧
  toggleRelay Ack "constructor" a
  = Returned (setRelay Ack "constructor" (VBool true) a) ∧
  sent (state_of (toggleRelay Ack "constructor" a))
  = [DbSet "home_automation/devices/pico_w_001/relays/constructor/status" (VBool true)] ∧
  toggleRelay Ack "constructor" a ≠ Thrown TypeError a.
Proof.
  intros a.
  assert (Hret : toggleRelay Ack "constructor" a
                 = Returned (setRelay Ack "constructor" (VBool true) a))
    by (vm_compute; reflexivity).
  split; [vm_compute; reflexivity|]. split; [exact Hret|].
  split; [vm_compute; reflexivity|].
  rewrite Hret. discriminate.
Qed.

(** C10, amended: the toggle reads the cached entry without a guard.
    With an entry under the identifier it goes on to the write of the
    negated state.  Without one, in [js/app.js], it throws on the missing
    entry before any write, the instance being as before, unless the
    identifier names a property that a plain object inherits from
    [Object.prototype] ([constructor], [toString], ...): then the lookup
    succeeds, the state reads as [undefined] and [true] is written under
    that identifier.  The 16 initialised identifiers have an entry in
    every reachable state, and so has every identifier that an applied
    snapshot mentions.  In the [Map] variant every identifier without
    entry throws before any request. *)
Theorem toggle_lookup_unguarded (reply : Reply) (relayId : string)
    (a : App) (fa : Frontend.App) :
  let inherited :=
    [ "constructor"; "__defineGetter__"; "__defineSetter__"; "hasOwnProperty";
      "__lookupGetter__"; "__lookupSetter__"; "isPrototypeOf";
      "propertyIsEnumerable"; "toString"; "valueOf"; "__proto__"; "toLocaleString" ] in
  (∀ e, relayStates a !! relayId = Some e →
        toggleRelay reply relayId a = Returned (setRelay reply relayId (not_ (status e)) a)) ∧
  (relayStates a !! relayId = None → relayId ∉ inherited →
   toggleRelay reply relayId a = Thrown TypeError a) ∧
  (relayStates a !! relayId = None → relayId ∈ inherited →
   toggleRelay reply relayId a = Returned (setRelay reply relayId (VBool true) a) ∧
   sent (setRelay reply relayId (VBool true) a)
   = sent a ++ [DbSet ("home_automation/devices/pico_w_001/relays/" +:+ relayId +:+ "/status")
                      (VBool true)]) ∧
  (∀ evs i, 1 ≤ i ≤ 16 → is_Some (relayStates (run evs new_HomeAutomationApp) !! relay_id i)) ∧
  (∀ clock relayData, relayId ∈ Object_keys relayData →
        is_Some (relayStates (updateRelayStates clock relayData a) !! relayId)) ∧
  (Frontend.relayStates fa !! relayId = None →
   Frontend.toggleRelay reply relayId fa = Frontend.Thrown TypeError fa) ∧
  (is_Some (Frontend.relayStates fa !! relayId) →
   ∃ fa', Frontend.toggleRelay reply relayId fa = Frontend.Returned fa' ∧
          length (Frontend.sent fa') = S (length (Frontend.sent fa))).
Proof.
  intros inherited. change inherited with Object_prototype. clear inherited.
  split; [|split; [|split; [|split; [|split; [|split]]]]].
  - intros e He. unfold toggleRelay. by rewrite He.
  - intros Hnone Hout. unfold toggleRelay. rewrite Hnone. by rewrite decide_False.
  - intros Hnone Hin. unfold toggleRelay. rewrite Hnone. rewrite decide_True by done.
    split; [done|]. rewrite <- status_path_literal. by destruct reply.
  - intros evs i Hi. apply elem_of_dom. rewrite run_dom, new_dom.
    apply elem_of_union_l, elem_of_list_to_set.
    apply list_elem_of_fmap_2. by apply elem_of_channels.
  - intros clock relayData Hin. apply elem_of_dom.
    rewrite updateRelayStates_store, forEach_dom.
    by apply elem_of_union_r, elem_of_list_to_set.
  - intros Hnone. unfold Frontend.toggleRelay. by rewrite Hnone.
  - intros [e He]. unfold Frontend.toggleRelay. rewrite He.
    destruct reply, (Frontend.apiConnected fa) eqn:Hapi;
      (eexists; split; [reflexivity|]); simpl; rewrite ?Hapi; simpl;
      rewrite length_app; simpl; lia.
Qed.

Lemma toggle_lookup_unguarded_witness :
  (relayStates new_HomeAutomationApp !! "relay_17" = None ∧
   relayStates new_HomeAutomationApp !! "toString" = None ∧
   ("relay_17" ∉ Object_prototype) ∧ ("toString" ∈ Object_prototype)) ∧
  toggleRelay Ack "relay_17" new_HomeAutomationApp = Thrown TypeError new_HomeAutomationApp ∧
  toggleRelay Ack "toString" new_HomeAutomationApp
  = Returned (setRelay Ack "toString" (VBool true) new_HomeAutomationApp) ∧
  Frontend.toggleRelay Ack "toString" Frontend.new_HomeAutomationApp
  = Frontend.Thrown TypeError Frontend.new_HomeAutomationApp.
Proof.
  assert (H17 : relayStates new_HomeAutomationApp !! "relay_17" = None)
    by (vm_compute; reflexivity).
  assert (Hout : "relay_17" ∉ Object_prototype)
    by (apply (bool_decide_unpack _); vm_compute; exact I).
  assert (Hin : "toString" ∈ Object_prototype)
    by (apply (bool_decide_unpack _); vm_compute; exact I).
  assert (HtS : relayStates new_HomeAutomationApp !! "toString" = None)
    by (vm_compute; reflexivity).
  split; [split; [exact H17|split; [exact HtS|split; [exact Hout|exact Hin]]]|].
  split; [|split].
  - exact (proj1 (proj2 (toggle_lookup_unguarded Ack "relay_17" new_HomeAutomationApp
                           Frontend.new_HomeAutomationApp)) H17 Hout).
  - exact (proj1 (proj1 (proj2 (proj2 (toggle_lookup_unguarded Ack "toString"
                     new_HomeAutomationApp Frontend.new_HomeAutomationApp))) HtS Hin)).
  - refine (proj1 (proj2 (proj2 (proj2 (proj2 (proj2 (toggle_lookup_unguarded Ack "toString"
                     new_HomeAutomationApp Frontend.new_HomeAutomationApp)))))) _).
    vm_compute. reflexivity.
Defined.

(** ** Further properties of the specification *)

(** After initialisation the store has exactly 16 entries, the channels
    [relay_1] to [relay_16], each off, never changed, and with a non-empty
    name. *)
Theorem initial_store :
  size (relayStates new_HomeAutomationApp) = 16 ∧
  dom (relayStates new_HomeAutomationApp) =@{gset string} list_to_set relay_ids ∧
  map_Forall (λ _ e, status e = VBool false ∧ lastChanged e = None ∧
                     ∃ s, name e = VStr s ∧ s ≠ "")
             (relayStates new_HomeAutomationApp).
Proof.
  split; [by vm_compute|]. split; [apply new_dom|].
  intros k e Hk.
  assert (truthy (name e) = true) as Hname by (by apply (new_named k e)).
  unfold new_HomeAutomationApp, createRelayControls, with_relayStates in Hk.
  cbn [relayStates] in Hk.
  destruct (decide (k ∈ relay_id <$> channels)) as [Hin|Hout].
  - apply list_elem_of_fmap in Hin as (i & -> & Hin).
    rewrite init_loop_channel in Hk by done. injection Hk as <-.
    repeat split. exists (default_name i). split; [done|].
    intros Hempty. simpl in Hname. by rewrite Hempty in Hname.
  - rewrite init_loop_other in Hk by done. by rewrite lookup_empty in Hk.
Qed.

(** Set-all makes exactly one call, an [update] of 16 entries that binds
    each channel's status path
    [home_automation/devices/pico_w_001/relays/relay_<i>/status], once, to
    the requested value; the store is as before. *)
Theorem setAll_batched_write (reply : Reply) (v : value) (a : App) :
  let updates :=
    (λ i, ("home_automation/devices/pico_w_001/relays/relay_" +:+ pretty i +:+ "/status",
           v))
    <$> seq 1 16 in
  sent (setAllRelays reply v a) = sent a ++ [DbUpdate updates] ∧
  relayStates (setAllRelays reply v a) = relayStates a ∧
  length updates = 16 ∧
  Object_keys updates = [
       "home_automation/devices/pico_w_001/relays/relay_1/status";
       "home_automation/devices/pico_w_001/relays/relay_2/status";
       "home_automation/devices/pico_w_001/relays/relay_3/status";
       "home_automation/devices/pico_w_001/relays/relay_4/status";
       "home_automation/devices/pico_w_001/relays/relay_5/status";
       "home_automation/devices/pico_w_001/relays/relay_6/status";
       "home_automation/devices/pico_w_001/relays/relay_7/status";
       "home_automation/devices/pico_w_001/relays/relay_8/status";
       "home_automation/devices/pico_w_001/relays/relay_9/status";
       "home_automation/devices/pico_w_001/relays/relay_10/status";
       "home_automation/devices/pico_w_001/relays/relay_11/status";
       "home_automation/devices/pico_w_001/relays/relay_12/status";
       "home_automation/devices/pico_w_001/relays/relay_13/status";
       "home_automation/devices/pico_w_001/relays/relay_14/status";
       "home_automation/devices/pico_w_001/relays/relay_15/status";
       "home_automation/devices/pico_w_001/relays/relay_16/status" ] ∧
  NoDup (Object_keys updates) ∧
  Forall (λ kv, kv.2 = v) updates.
Proof.
  intros updates.
  assert (Hform : updates = (λ i, (status_path (relay_id i), v)) <$> channels)
    by reflexivity.
  assert (Hkeys : Object_keys updates
                  = (λ i, "home_automation/devices/pico_w_001/relays/relay_"
                          +:+ pretty i +:+ "/status") <$> seq 1 16).
  { unfold updates, Object_keys. by rewrite <- list_fmap_compose. }
  assert (Hupd : setAll_updates v = updates).
  { rewrite Hform. unfold setAll_updates.
    rewrite (foldl_set_fresh (λ i, status_path (relay_id i)) (λ _, v)); [done|].
    apply status_paths_NoDup. }
  split; [|split; [|split; [|split; [|split]]]].
  - unfold setAllRelays. rewrite Hupd. by destruct reply.
  - apply setAllRelays_store.
  - unfold updates. by rewrite length_fmap.
  - rewrite Hkeys. apply status_paths_literal.
  - rewrite Hkeys. apply status_paths_NoDup.
  - unfold updates. apply Forall_fmap, Forall_forall. by intros i _.
Qed.

(** In the frontend, when the REST server is not connected and the 16
    channels have their entries, a toggle-all intent makes exactly one
    call, a database [update] that binds each channel's status path
    [home_automation/devices/pico_w_001/relays/relay_<i>/status], once and
    in channel order, to the negation of its cached state; the store is as
    before.  When an entry is missing the loop throws inside the [try]:
    nothing is sent and the failure is notified. *)
Theorem frontend_toggleAll_database (reply : Reply) (fa : Frontend.App) :
  Frontend.apiConnected fa = false →
  let updates :=
    (λ i, ("home_automation/devices/pico_w_001/relays/relay_" +:+ pretty i +:+ "/status",
           VBool (negb (truthy
             (default VUndefined
                (Frontend.status <$> Frontend.relayStates fa !! ("relay_" +:+ pretty i)))))))
    <$> seq 1 16 in
  ((∀ i, 1 ≤ i ≤ 16 → is_Some (Frontend.relayStates fa !! ("relay_" +:+ pretty i))) →
   Frontend.sent (Frontend.toggleAllRelays reply fa)
   = Frontend.sent fa ++ [Frontend.Db (DbUpdate updates)] ∧
   Frontend.relayStates (Frontend.toggleAllRelays reply fa) = Frontend.relayStates fa ∧
   Object_keys updates = [
        "home_automation/devices/pico_w_001/relays/relay_1/status";
        "home_automation/devices/pico_w_001/relays/relay_2/status";
        "home_automation/devices/pico_w_001/relays/relay_3/status";
        "home_automation/devices/pico_w_001/relays/relay_4/status";
        "home_automation/devices/pico_w_001/relays/relay_5/status";
        "home_automation/devices/pico_w_001/relays/relay_6/status";
        "home_automation/devices/pico_w_001/relays/relay_7/status";
        "home_automation/devices/pico_w_001/relays/relay_8/status";
        "home_automation/devices/pico_w_001/relays/relay_9/status";
        "home_automation/devices/pico_w_001/relays/relay_10/status";
        "home_automation/devices/pico_w_001/relays/relay_11/status";
        "home_automation/devices/pico_w_001/relays/relay_12/status";
        "home_automation/devices/pico_w_001/relays/relay_13/status";
        "home_automation/devices/pico_w_001/relays/relay_14/status";
        "home_automation/devices/pico_w_001/relays/relay_15/status";
        "home_automation/devices/pico_w_001/relays/relay_16/status" ]) ∧
  (∀ i, 1 ≤ i ≤ 16 → Frontend.relayStates fa !! ("relay_" +:+ pretty i) = None →
        Frontend.sent (Frontend.toggleAllRelays reply fa) = Frontend.sent fa ∧
        Frontend.relayStates (Frontend.toggleAllRelays reply fa) = Frontend.relayStates fa ∧
        Frontend.notifications (Frontend.toggleAllRelays reply fa)
        = Frontend.notifications fa ++ [("Failed to toggle all relays", "error")]).
Proof.
  intros Hapi updates. split.
  - intros Hall.
    destruct (FrontendFacts.f_toggleAll_database reply fa Hapi Hall) as [Hsent Hst].
    split; [exact Hsent|]. split; [exact Hst|].
    unfold updates, Object_keys. rewrite <- list_fmap_compose.
    apply status_paths_literal.
  - intros i Hi Hnone.
    rewrite (FrontendFacts.f_toggleAll_missing_entry reply fa i Hapi Hi Hnone).
    by repeat split.
Qed.

Lemma frontend_toggleAll_database_witness :
  let fa := Frontend.new_HomeAutomationApp in
  Frontend.apiConnected fa = false ∧
  ∃ updates,
    Frontend.sent (Frontend.toggleAllRelays Ack fa) = [Frontend.Db (DbUpdate updates)] ∧
    take 2 updates
    = [("home_automation/devices/pico_w_001/relays/relay_1/status", VBool true);
       ("home_automation/devices/pico_w_001/relays/relay_2/status", VBool true)].
Proof.
  intros fa. split; [reflexivity|].
  destruct (proj1 (frontend_toggleAll_database Ack fa eq_refl)) as (Hsent & _).
  { intros i Hi. exists (Frontend.initial_entry i).
    apply (init_loop_channel Frontend.initial_entry). by apply elem_of_channels. }
  eexists. split; [exact Hsent|]. vm_compute. reflexivity.
Defined.

(** ** Further properties of [js/app.js] *)

Lemma forEach_Forall (P : string → RelayState → Prop) clock i relayData
    (st : gmap string RelayState) n :
  (∀ st now k r, P k (entry_of st now k r)) →
  map_Forall P st → map_Forall P (forEach clock i relayData st n).1.
Proof.
  intros HP. revert i st n.
  induction relayData as [|[k r] rest IH]; intros i st n Hst; [done|].
  simpl. apply IH. by apply map_Forall_insert_2.
Qed.

Lemma run_Forall (P : string → RelayState → Prop) (evs : list Event) :
  (∀ st now k r, P k (entry_of st now k r)) →
  map_Forall P (relayStates new_HomeAutomationApp) →
  map_Forall P (relayStates (run evs new_HomeAutomationApp)).
Proof.
  intros HP Hnew. induction evs as [|ev evs IH] using rev_ind; [done|].
  rewrite run_snoc, handle_store.
  destruct ev as [|v|clock [relayData|]|t|reply|reply|reply|relayId reply]; try done.
  by apply forEach_Forall.
Qed.

Lemma new_lookup (k : string) (e : RelayState) :
  relayStates new_HomeAutomationApp !! k = Some e →
  ∃ i, 1 ≤ i ≤ 16 ∧ k = relay_id i ∧ e = initial_entry i.
Proof.
  intros Hk.
  unfold new_HomeAutomationApp, createRelayControls, with_relayStates in Hk.
  cbn [relayStates] in Hk.
  destruct (decide (k ∈ relay_id <$> channels)) as [Hin|Hout].
  - apply list_elem_of_fmap in Hin as (i & -> & Hin).
    rewrite init_loop_channel in Hk by done. injection Hk as <-.
    exists i. split; [by apply elem_of_channels|done].
  - rewrite init_loop_other in Hk by done. by rewrite lookup_empty in Hk.
Qed.

(** In every state the instance can reach, each entry has a non-empty
    (truthy) name and a normalised state: a delivered falsy status such as
    [0], the empty string or [null] is stored as [false].  An entry without
    a time stamp is one of the 16 initial entries, still as
    [createRelayControls] wrote it. *)
Theorem reachable_entries_wellformed (evs : list Event) (k : string) (e : RelayState) :
  relayStates (run evs new_HomeAutomationApp) !! k = Some e →
  truthy (name e) = true ∧
  (status e = VBool false ∨ truthy (status e) = true) ∧
  (lastChanged e = None → ∃ i, 1 ≤ i ≤ 16 ∧ k = relay_id i ∧ e = initial_entry i).
Proof.
  revert k e.
  apply (run_Forall
           (λ k e, truthy (name e) = true ∧
                   (status e = VBool false ∨ truthy (status e) = true) ∧
                   (lastChanged e = None →
                    ∃ i, 1 ≤ i ≤ 16 ∧ k = relay_id i ∧ e = initial_entry i))).
  - intros st now k r. simpl. split; [|split].
    + rewrite !truthy_or_else. simpl. by rewrite !orb_true_r.
    + unfold or_else. destruct (truthy (r_status r)) eqn:E; [by right|by left].
    + discriminate.
  - intros k e Hk. destruct (new_lookup k e Hk) as (i & Hi & -> & ->).
    split; [apply default_name_truthy|]. split; [by left|].
    intros _. by exists i.
Qed.

Lemma reachable_entries_wellformed_witness :
  let evs := [RelaysValue (λ _, 1000%Z)
                (Some [("relay_2", mkRelayData (VNum 0) (VStr "") VUndefined);
                       ("relay_5", mkRelayData (VStr "on") VUndefined VUndefined)])] in
  let e := mkRelayState (VBool false) (VStr "Kitchen Fan") (Some 1000%Z) in
  relayStates (run evs new_HomeAutomationApp) !! "relay_2" = Some e ∧
  truthy (name e) = true ∧
  (status e = VBool false ∨ truthy (status e) = true) ∧
  (lastChanged e = None → ∃ i, 1 ≤ i ≤ 16 ∧ "relay_2" = relay_id i ∧ e = initial_entry i).
Proof.
  intros evs e.
  assert (He : relayStates (run evs new_HomeAutomationApp) !! "relay_2" = Some e)
    by (vm_compute; reflexivity).
  split; [exact He|].
  exact (reachable_entries_wellformed evs "relay_2" e He).
Defined.

(** Two instances that apply the same snapshot agree afterwards on the
    state of every channel it mentions, whatever each had cached, and on
    its name when the snapshot delivers one; when the snapshot mentions
    every channel of both stores they hold the same identifiers and count
    the same channels as on. *)
Theorem snapshot_convergence (clock1 clock2 : nat → Z)
    (relayData : list (string * RelayData)) (a b : App) :
  NoDup (Object_keys relayData) →
  let a' := updateRelayStates clock1 relayData a in
  let b' := updateRelayStates clock2 relayData b in
  (∀ relayId relay, (relayId, relay) ∈ relayData →
     status <$> relayStates a' !! relayId = Some (or_else (r_status relay) (VBool false)) ∧
     status <$> relayStates b' !! relayId = status <$> relayStates a' !! relayId ∧
     (truthy (r_name relay) = true →
      name <$> relayStates b' !! relayId = name <$> relayStates a' !! relayId)) ∧
  ((∀ k, is_Some (relayStates a !! k) → k ∈ Object_keys relayData) →
   (∀ k, is_Some (relayStates b !! k) → k ∈ Object_keys relayData) →
   dom (relayStates a') =@{gset string} dom (relayStates b') ∧
   active_in_store (relayStates a') = active_in_store (relayStates b')).
Proof.
  intros Hnd a' b'. unfold a', b'. rewrite !updateRelayStates_store. split.
  - intros relayId relay Hin. apply list_elem_of_lookup in Hin as [j Hj].
    rewrite !(forEach_mentioned _ 0 relayData _ 0 j relayId relay) by done.
    simpl. split; [done|]. split; [done|].
    intros Hname. unfold or_else. by rewrite Hname.
  - intros Ha Hb. split.
    + rewrite !forEach_dom. 
      assert (∀ c : App, (∀ k, is_Some (relayStates c !! k) → k ∈ Object_keys relayData) →
                dom (relayStates c) ∪ list_to_set (Object_keys relayData)
                =@{gset string} list_to_set (Object_keys relayData)) as Hcov.
      { intros c Hc. apply subseteq_union_1_L. intros k Hk.
        apply elem_of_dom in Hk. apply elem_of_list_to_set. by apply Hc. }
      by rewrite (Hcov a Ha), (Hcov b Hb).
    + unfold active_in_store.
      rewrite (forEach_covering clock1 relayData (relayStates a) 0 Hnd),
              (forEach_covering clock2 relayData (relayStates b) 0 Hnd).
      * by rewrite !covering_count.
      * intros k Hk. apply elem_of_dom in Hk. apply elem_of_list_to_set. by apply Hb.
      * intros k Hk. apply elem_of_dom in Hk. apply elem_of_list_to_set. by apply Ha.
Qed.

Lemma snapshot_convergence_witness :
  let relayData := [("relay_1", mkRelayData (VBool true) (VStr "Lamp") VUndefined);
                    ("relay_2", mkRelayData (VBool false) VUndefined VUndefined)] in
  let a := new_HomeAutomationApp in
  let b := updateRelayStates (λ _, 500%Z)
             [("relay_2", mkRelayData (VBool true) (VStr "Heater") VUndefined)]
             new_HomeAutomationApp in
  let a' := updateRelayStates (λ _, 1000%Z) relayData a in
  let b' := updateRelayStates (λ _, 2000%Z) relayData b in
  status <$> relayStates b !! "relay_2" ≠ status <$> relayStates a !! "relay_2" ∧
  status <$> relayStates b' !! "relay_2" = status <$> relayStates a' !! "relay_2".
Proof.
  intros relayData a b a' b'.
  split; [vm_compute; discriminate|].
  assert (Hnd : NoDup (Object_keys relayData)).
  { apply (bool_decide_unpack _). vm_compute. exact I. }
  destruct (snapshot_convergence (λ _, 1000%Z) (λ _, 2000%Z) relayData a b Hnd)
    as [Hagree _].
  apply (Hagree "relay_2" (mkRelayData (VBool false) VUndefined VUndefined)).
  apply list_elem_of_lookup. by exists 1.
Defined.

(** Two toggles of a channel with no snapshot in between send the same
    value twice, since the cache is what the negation is taken from and a
    write does not touch it; once the snapshot that echoes the first
    write is applied, the second toggle sends the opposite value. *)
Theorem toggle_twice (r1 r2 : Reply) (clock : nat → Z) (relayId : string)
    (a : App) (e : RelayState) :
  relayStates a !! relayId = Some e →
  let v := VBool (negb (truthy (status e))) in
  let echo := [(relayId, mkRelayData v VUndefined VUndefined)] in
  ∃ a1, toggleRelay r1 relayId a = Returned a1 ∧
    (∃ a2, toggleRelay r2 relayId a1 = Returned a2 ∧
           sent a2 = sent a ++ [DbSet (status_path relayId) v;
                                DbSet (status_path relayId) v]) ∧
    (∃ a2, toggleRelay r2 relayId (updateRelayStates clock echo a1) = Returned a2 ∧
           sent a2 = sent a ++ [DbSet (status_path relayId) v;
                                DbSet (status_path relayId) (VBool (truthy (status e)))]).
Proof.
  intros He v echo.
  assert (Hsent : ∀ r x (c : App),
            sent (setRelay r relayId x c) = sent c ++ [DbSet (status_path relayId) x])
    by (by intros [] x c).
  exists (setRelay r1 relayId (not_ (status e)) a).
  split; [unfold toggleRelay; by rewrite He|]. split.
  - eexists. unfold toggleRelay at 1. rewrite setRelay_store, He.
    split; [reflexivity|]. rewrite !Hsent, <- app_assoc. done.
  - eexists. unfold toggleRelay at 1.
    rewrite updateRelayStates_store. unfold echo. simpl.
    rewrite lookup_insert_eq. split; [reflexivity|].
    rewrite Hsent.
    assert (sent (updateRelayStates clock
                    [(relayId, mkRelayData v VUndefined VUndefined)]
                    (setRelay r1 relayId (not_ (status e)) a))
            = sent (setRelay r1 relayId (not_ (status e)) a)) as ->.
    { unfold updateRelayStates. by destruct (forEach _ _ _ _ _). }
    rewrite Hsent, <- app_assoc. simpl. do 3 f_equal.
    unfold v, not_, or_else. simpl. destruct (truthy (status e)); reflexivity.
Qed.

Lemma toggle_twice_witness :
  let a := new_HomeAutomationApp in
  let p := status_path "relay_3" in
  relayStates a !! "relay_3" = Some (initial_entry 3) ∧
  (∃ a1 a2, toggleRelay Ack "relay_3" a = Returned a1 ∧
            toggleRelay Ack "relay_3" a1 = Returned a2 ∧
            sent a2 = [DbSet p (VBool true); DbSet p (VBool true)]).
Proof.
  intros a p.
  assert (He : relayStates a !! "relay_3" = Some (initial_entry 3))
    by (vm_compute; reflexivity).
  split; [exact He|].
  destruct (toggle_twice Ack Ack (λ _, 1000%Z) "relay_3" a (initial_entry 3) He)
    as (a1 & H1 & (a2 & H2 & Hsent) & _).
  exists a1, a2. split; [exact H1|]. split; [exact H2|exact Hsent].
Defined.

(** What one event appends to the calls sent so far. *)
Lemma handle_sent (ev : Event) (a : App) :
  ∃ l, sent (state_of (handle ev a)) = sent a ++ l ∧
       filter (λ c, Traffic.is_write c = true) l
       = (if Traffic.is_intent ev then filter (λ c, Traffic.is_write c = true) l else []) ∧
       length (filter (λ c, Traffic.is_write c = true) l) ≤ 1 ∧
       length (filter (λ c, Traffic.is_subscription c = true) l)
       = (if Traffic.is_sign_in ev then 3 else 0).
Proof.
  assert (Hnil : ∀ c : App, sent c = sent c ++ []) by (intros; by rewrite app_nil_r).
  destruct ev as [|v|clock [relayData|]|[t|]|reply|reply|reply|relayId reply]; simpl.
  - exists [DbOn (device_path +:+ "/online"); DbOn (device_path +:+ "/relays");
            DbOn (device_path +:+ "/last_update"); DbOnce (device_path +:+ "/relays")].
    split; [by rewrite <- !app_assoc|]. repeat split; simpl; lia.
  - exists []. repeat split; simpl; [apply Hnil|lia].
  - exists []. repeat split; simpl; [|lia].
    rewrite app_nil_r. unfold updateRelayStates. by destruct (forEach _ _ _ _ _).
  - exists []. repeat split; simpl; [apply Hnil|lia].
  - exists []. repeat split; simpl; [|lia].
    rewrite app_nil_r. by destruct (t =? 0)%Z.
  - exists []. repeat split; simpl; [apply Hnil|lia].
  - exists [DbUpdate (setAll_updates (VBool true))].
    repeat split; simpl; [by destruct reply|lia].
  - exists [DbUpdate (setAll_updates (VBool false))].
    repeat split; simpl; [by destruct reply|lia].
  - exists [DbUpdate (toggleAll_updates (relayStates a))].
    repeat split; simpl; [by destruct reply|lia].
  - unfold toggleRelay. destruct (relayStates a !! relayId) as [e|]; simpl.
    + exists [DbSet (status_path relayId) (not_ (status e))].
      repeat split; simpl; [by destruct reply|lia].
    + case_decide; simpl.
      * exists [DbSet (status_path relayId) (not_ VUndefined)].
        repeat split; simpl; [by destruct reply|lia].
      * exists []. repeat split; simpl; [apply Hnil|lia].
Qed.

(** The app writes to the database on a user's intent only: over any
    sequence of events there are at most as many writes as intents, and a
    sequence without intents (sign-ins and delivered values, snapshots
    included) adds no write to those already sent. *)
Theorem writes_come_from_intents (evs : list Event) (a : App) :
  let writes (c : App) := filter (λ c, Traffic.is_write c = true) (sent c) in
  length (writes (run evs a))
  ≤ length (writes a) + length (filter (λ ev, Traffic.is_intent ev = true) evs) ∧
  (Forall (λ ev, Traffic.is_intent ev = false) evs → writes (run evs a) = writes a).
Proof.
  intros writes. unfold writes. split.
  - induction evs as [|ev evs IH] using rev_ind; [simpl; lia|].
    rewrite run_snoc.
    destruct (handle_sent ev (run evs a)) as (l & -> & Hint & Hle & _).
    rewrite !filter_app, !length_app. rewrite Hint.
    rewrite (filter_cons (λ ev, Traffic.is_intent ev = true)).
    destruct (Traffic.is_intent ev) eqn:E.
    + rewrite decide_True by done. simpl. lia.
    + rewrite decide_False by congruence. simpl. lia.
  - induction evs as [|ev evs IH] using rev_ind; [done|].
    intros Hall. apply Forall_app in Hall as [Hevs Hev].
    apply Forall_inv in Hev.
    rewrite run_snoc.
    destruct (handle_sent ev (run evs a)) as (l & -> & Hint & _).
    rewrite filter_app, Hint, Hev, app_nil_r. by apply IH.
Qed.

Lemma writes_come_from_intents_witness :
  let on := mkRelayData (VBool true) VUndefined VUndefined in
  let evs := [SignedIn; RelaysValue (λ _, 1000%Z) (Some [("relay_1", on)]);
              OnlineValue (VBool true); LastUpdateValue (Some 1700000000%Z)] in
  Forall (λ ev, Traffic.is_intent ev = false) evs ∧
  filter (λ c, Traffic.is_write c = true) (sent (run evs new_HomeAutomationApp)) = [].
Proof.
  intros on evs.
  assert (Hall : Forall (λ ev, Traffic.is_intent ev = false) evs)
    by (repeat constructor).
  split; [exact Hall|].
  exact (proj2 (writes_come_from_intents evs new_HomeAutomationApp) Hall).
Defined.


Lemma handle_deviceOnline (ev : Event) (a : App) :
  deviceOnline (state_of (handle ev a))
  = match ev with
    | OnlineValue v => or_else v (VBool false)
    | _ => deviceOnline a
    end.
Proof.
  destruct ev as [|v|clock [relayData|]|[t|]|reply|reply|reply|relayId reply]; simpl;
    try done; try (by destruct reply).
  - unfold updateRelayStates. by destruct (forEach _ _ _ _ _).
  - by destruct (t =? 0)%Z.
  - unfold toggleRelay. destruct (relayStates a !! relayId); [by destruct reply|].
    case_decide; [by destruct reply|done].
Qed.

(** The online flag is the normalised value of the last [online]
    notification, whatever relay snapshots, time stamps, sign-ins or
    intents came before or after it; without such a notification it keeps
    its value. *)
Theorem deviceOnline_follows_last_notification (evs1 evs2 : list Event) (v : value)
    (a : App) :
  Forall (λ ev, ∀ w, ev ≠ OnlineValue w) evs2 →
  deviceOnline (run (evs1 ++ OnlineValue v :: evs2) a) = or_else v (VBool false) ∧
  deviceOnline (run evs2 a) = deviceOnline a.
Proof.
  intros Hno.
  assert (Hkeep : ∀ c, deviceOnline (run evs2 c) = deviceOnline c).
  { induction evs2 as [|ev evs IH] using rev_ind; [done|]. intros c.
    apply Forall_app in Hno as [Hevs Hev]. apply Forall_inv in Hev.
    rewrite run_snoc, handle_deviceOnline.
    destruct ev; try (by apply IH). by destruct (Hev v0). }
  split; [|apply Hkeep].
  unfold run. rewrite foldl_app. simpl. fold (run evs1 a).
  change (foldl (λ a ev, state_of (handle ev a))
            (with_deviceOnline (or_else v (VBool false)) (run evs1 a)) evs2)
    with (run evs2 (with_deviceOnline (or_else v (VBool false)) (run evs1 a))).
  by rewrite Hkeep.
Qed.

Lemma deviceOnline_follows_last_notification_witness :
  let on := mkRelayData (VBool true) VUndefined VUndefined in
  let evs1 := [OnlineValue (VBool false); SignedIn] in
  let evs2 := [RelaysValue (λ _, 1000%Z) (Some [("relay_1", on)]); ToggleAllClick Reject] in
  Forall (λ ev, ∀ w, ev ≠ OnlineValue w) evs2 ∧
  deviceOnline (run (evs1 ++ OnlineValue (VNum 1) :: evs2) new_HomeAutomationApp) = VNum 1.
Proof.
  intros on evs1 evs2.
  assert (Hno : Forall (λ ev, ∀ w, ev ≠ OnlineValue w) evs2)
    by (repeat constructor; discriminate).
  split; [exact Hno|].
  exact (proj1 (deviceOnline_follows_last_notification evs1 evs2 (VNum 1)
                  new_HomeAutomationApp Hno)).
Defined.

(** *** Synthesised names *)

Lemma split_no_sep (sep : ascii) (s : string) :
  Text.contains sep s = false → split sep s = [s].
Proof.
  induction s as [|c s IH]; simpl; [done|].
  intros H. apply orb_false_iff in H as [Hc Hs].
  rewrite Hc, (IH Hs). done.
Qed.

Lemma split_app_sep (sep : ascii) (s t : string) :
  Text.contains sep s = false →
  split sep (s +:+ String sep t) = s :: split sep t.
Proof.
  induction s as [|c s IH]; simpl.
  - intros _. by rewrite Ascii.eqb_refl.
  - intros H. apply orb_false_iff in H as [Hc Hs].
    rewrite Hc, (IH Hs). done.
Qed.

Lemma pretty_N_go_digits (x : N) (s : string) :
  Text.contains "_" s = false → Text.contains "_" (pretty_N_go x s) = false.
Proof.
  revert s. induction (N.lt_wf_0 x) as [x _ IH]; intros s Hs.
  assert (x = 0 ∨ 0 < x)%N as [->|Hpos] by lia.
  - by rewrite pretty_N_go_0.
  - rewrite pretty_N_go_step by done. apply IH; [by apply N.div_lt|].
    simpl. rewrite Hs, orb_false_r.
    unfold pretty_N_char. by repeat case_match.
Qed.

Lemma pretty_nat_digits (i : nat) : Text.contains "_" (pretty i) = false.
Proof.
  unfold pretty, pretty_nat, pretty, pretty_N.
  case_decide; [done|]. by apply pretty_N_go_digits.
Qed.

(** The name [updateRelayStates] makes up for a channel it has no name
    for is [Device] followed by what stands between the first and the
    second underscore of the identifier: for [relay_<i>] that is
    [Device <i>], the default of [createRelayControls] for a channel beyond
    the list of names; for an identifier without underscore it is
    [Device undefined]. *)
Theorem fallback_name_cases :
  (∀ i : nat, fallback_name (relay_id i) = "Device " +:+ pretty i) ∧
  (∀ i : nat, 16 < i → fallback_name (relay_id i) = default_name i) ∧
  (∀ s, Text.contains "_" s = false → fallback_name s = "Device undefined") ∧
  (∀ s t u, Text.contains "_" s = false → Text.contains "_" t = false →
            fallback_name (s +:+ "_" +:+ t +:+ "_" +:+ u) = "Device " +:+ t).
Proof.
  assert (Hid : ∀ i : nat, fallback_name (relay_id i) = "Device " +:+ pretty i).
  { intros i. unfold fallback_name.
    change (relay_id i) with ("relay" +:+ String "_" (pretty i)).
    rewrite split_app_sep by done.
    by rewrite (split_no_sep _ _ (pretty_nat_digits i)). }
  split; [exact Hid|]. split; [|split].
  - intros i Hi. rewrite Hid. unfold default_name.
    rewrite (lookup_ge_None_2 RELAY_NAMES); [done|]. simpl. lia.
  - intros s Hs. unfold fallback_name. by rewrite split_no_sep.
  - intros s t u Hs Ht. unfold fallback_name.
    change (s +:+ "_" +:+ t +:+ "_" +:+ u)
      with (s +:+ String "_" (t +:+ String "_" u)).
    by rewrite !split_app_sep.
Qed.

Lemma fallback_name_cases_witness :
  (16 < 17 ∧ Text.contains "_" "kitchen" = false) ∧
  fallback_name (relay_id 17) = default_name 17 ∧
  fallback_name "kitchen" = "Device undefined".
Proof.
  assert (H17 : 16 < 17) by lia.
  assert (Hk : Text.contains "_" "kitchen" = false) by reflexivity.
  destruct fallback_name_cases as (_ & Hdef & Hnone & _).
  split; [split; [exact H17|exact Hk]|].
  split; [exact (Hdef 17 H17)|exact (Hnone "kitchen" Hk)].
Defined.

(** *** The name of a channel first seen in a snapshot *)

(** When a snapshot mentions a channel the store of [js/app.js] has no
    entry for, the entry it adds takes the delivered name when that is
    non-empty.  Otherwise the name is read through the plain object: for
    an identifier that names an inherited method it is the name of that
    method, for [constructor] it is [Object]; for any identifier that a
    plain object does not inherit it is the made-up name [Device ...]. *)
Theorem new_channel_name (clock : nat → Z) (relayId : string) (relay : RelayData) (a : App) :
  relayStates a !! relayId = None →
  let stored := name <$> relayStates (updateRelayStates clock [(relayId, relay)] a) !! relayId in
  (truthy (r_name relay) = true → stored = Some (r_name relay)) ∧
  (truthy (r_name relay) = false →
   (relayId = "constructor" → stored = Some (VStr "Object")) ∧
   (relayId ∈ [ "__defineGetter__"; "__defineSetter__"; "hasOwnProperty";
                "__lookupGetter__"; "__lookupSetter__"; "isPrototypeOf";
                "propertyIsEnumerable"; "toString"; "valueOf"; "toLocaleString" ] →
    stored = Some (VStr relayId)) ∧
   (relayId ∉ [ "constructor"; "__defineGetter__"; "__defineSetter__"; "hasOwnProperty";
                "__lookupGetter__"; "__lookupSetter__"; "isPrototypeOf";
                "propertyIsEnumerable"; "toString"; "valueOf"; "__proto__";
                "toLocaleString" ] →
    stored = Some (VStr (fallback_name relayId)) ∧
    ∃ rest, fallback_name relayId = "Device " +:+ rest)).
Proof.
  intros Hnone stored.
  assert (Hst : stored
                = Some (or_else (r_name relay)
                          (or_else (inherited_name relayId) (VStr (fallback_name relayId))))).
  { unfold stored. rewrite updateRelayStates_store. cbn [forEach fst].
    rewrite lookup_insert_eq. cbn [fmap option_fmap option_map entry_of name].
    unfold cached_name. by rewrite Hnone. }
  rewrite Hst. clear Hst stored. split.
  - intros Hname. unfold or_else at 1. by rewrite Hname.
  - intros Hname. unfold or_else. rewrite Hname. split; [|split].
    + by intros ->.
    + intros Hin. f_equal.
      repeat (apply elem_of_cons in Hin as [->|Hin]; [vm_compute; reflexivity|]).
      by apply elem_of_nil in Hin.
    + intros Hout. split; [|by eexists].
      unfold inherited_name.
      rewrite decide_False by (intros ->; apply Hout; by apply (bool_decide_unpack _)).
      rewrite decide_False by (intros ->; apply Hout; by apply (bool_decide_unpack _)).
      by rewrite decide_False.
Qed.

Lemma new_channel_name_witness :
  let a := new_HomeAutomationApp in
  let unnamed := mkRelayData (VBool true) VUndefined VUndefined in
  (relayStates a !! "constructor" = None ∧ relayStates a !! "pump" = None) ∧
  name <$> relayStates (updateRelayStates (λ _, 0%Z) [("constructor", unnamed)] a) !! "constructor"
  = Some (VStr "Object") ∧
  name <$> relayStates (updateRelayStates (λ _, 0%Z) [("pump", unnamed)] a) !! "pump"
  = Some (VStr "Device undefined").
Proof.
  intros a unnamed.
  assert (Hc : relayStates a !! "constructor" = None) by (vm_compute; reflexivity).
  assert (Hp : relayStates a !! "pump" = None) by (vm_compute; reflexivity).
  split; [split; [exact Hc|exact Hp]|]. split.
  - exact (proj1 (proj2 (new_channel_name (λ _, 0%Z) "constructor" unnamed a Hc) eq_refl)
             eq_refl).
  - refine (proj1 (proj2 (proj2 (proj2 (new_channel_name (λ _, 0%Z) "pump" unnamed a Hp)
                                   eq_refl)) _)).
    apply (bool_decide_unpack _). vm_compute. exact I.
Defined.

(** ** Time displays *)

Lemma new_Date_valid (ms : Z) :
  (Z.abs ms ≤ Display.MAX_TIME)%Z → Display.new_Date ms = Display.ValidDate ms.
Proof.
  intros H. unfold Display.new_Date.
  by rewrite (proj2 (Z.leb_le _ _) H).
Qed.

Lemma new_Date_invalid (ms : Z) :
  (Display.MAX_TIME < Z.abs ms)%Z → Display.new_Date ms = Display.InvalidDate.
Proof.
  intros H. unfold Display.new_Date.
  by rewrite (proj2 (Z.leb_gt _ _) H).
Qed.

Lemma displayText_below_minute (now lastUpdate : Z) :
  (now - lastUpdate < 60000)%Z →
  Display.displayText now (Display.ValidDate lastUpdate) = Display.Literal "Just now".
Proof.
  intros H. unfold Display.displayText. cbn [Display.valueOf fmap option_fmap option_map Display.lt].
  assert (((now - lastUpdate) / 1000 <? 60)%Z = true) as ->; [|done].
  apply Z.ltb_lt. Z.div_mod_to_equations. lia.
Qed.

Lemma displayText_minutes (now lastUpdate : Z) :
  (60000 ≤ now - lastUpdate < 3600000)%Z →
  Display.displayText now (Display.ValidDate lastUpdate)
  = Display.Literal (pretty ((now - lastUpdate) / 60000)%Z +:+ "m ago").
Proof.
  intros H. unfold Display.displayText.
  cbn [Display.valueOf fmap option_fmap option_map Display.lt Display.number_text].
  assert (((now - lastUpdate) / 1000 <? 60)%Z = false) as ->
    by (apply Z.ltb_ge; Z.div_mod_to_equations; lia).
  assert (((now - lastUpdate) / 1000 <? 3600)%Z = true) as ->
    by (apply Z.ltb_lt; Z.div_mod_to_equations; lia).
  do 3 f_equal. Z.div_mod_to_equations. lia.
Qed.

Lemma displayText_hours (now lastUpdate : Z) :
  (3600000 ≤ now - lastUpdate)%Z →
  Display.displayText now (Display.ValidDate lastUpdate)
  = Display.LocaleTimeString lastUpdate.
Proof.
  intros H. unfold Display.displayText.
  cbn [Display.valueOf fmap option_fmap option_map Display.lt Display.toLocaleTimeString].
  assert (((now - lastUpdate) / 1000 <? 60)%Z = false) as ->
    by (apply Z.ltb_ge; Z.div_mod_to_equations; lia).
  assert (((now - lastUpdate) / 1000 <? 3600)%Z = false) as ->
    by (apply Z.ltb_ge; Z.div_mod_to_equations; lia).
  done.
Qed.

(** [updateLastUpdateDisplay] of [js/app.js], for a current time and a
    last update that a [Date] can hold, by age of the last update: below
    a minute, a time in the future included, the text is [Just now]; from
    a minute to below an hour it is the whole minutes, between 1 and 59,
    followed by [m ago]; from an hour on the time of day is shown.  A last
    update beyond what a [Date] can hold shows [Invalid Date].  Without a
    known time or without the element nothing is written. *)
Theorem displayText_cases (now lastUpdate : Z) (a : App) :
  (Z.abs now ≤ 8640000000000000)%Z →
  let age := (now - lastUpdate)%Z in
  let shown := Display.displayText now (Display.new_Date lastUpdate) in
  ((Z.abs lastUpdate ≤ 8640000000000000)%Z →
   ((age < 60000)%Z → shown = Display.Literal "Just now") ∧
   ((60000 ≤ age < 3600000)%Z →
    (1 ≤ age / 60000 ≤ 59)%Z ∧
    shown = Display.Literal (pretty (age / 60000)%Z +:+ "m ago")) ∧
   ((3600000 ≤ age)%Z → shown = Display.LocaleTimeString lastUpdate)) ∧
  ((8640000000000000 < Z.abs lastUpdate)%Z → shown = Display.Literal "Invalid Date") ∧
  (Dashboard.lastUpdate a = Some lastUpdate →
   Display.updateLastUpdateDisplay true now a = Some shown) ∧
  (Dashboard.lastUpdate a = None → ∀ element,
   Display.updateLastUpdateDisplay element now a = None) ∧
  Display.updateLastUpdateDisplay false now a = None.
Proof.
  intros Hnow age shown. unfold shown.
  split; [|split; [|split; [|split]]].
  - intros Hvalid. rewrite (new_Date_valid _ Hvalid).
    split; [apply displayText_below_minute|]. split.
    + intros H. split; [Z.div_mod_to_equations; lia|by apply displayText_minutes].
    + apply displayText_hours.
  - intros Hout. by rewrite (new_Date_invalid _ Hout).
  - intros Hsome. unfold Display.updateLastUpdateDisplay. by rewrite Hsome.
  - intros Hnone element. unfold Display.updateLastUpdateDisplay. by rewrite Hnone.
  - unfold Display.updateLastUpdateDisplay. by destruct (Dashboard.lastUpdate a).
Qed.

Lemma displayText_cases_witness :
  let now := 1700000600000%Z in
  let seen := run [LastUpdateValue (Some 1700000000%Z)] new_HomeAutomationApp in
  let far := run [LastUpdateValue (Some 9000000000000%Z)] new_HomeAutomationApp in
  ((Z.abs now ≤ 8640000000000000)%Z ∧
   Dashboard.lastUpdate seen = Some 1700000000000%Z ∧
   Dashboard.lastUpdate far = Some 9000000000000000%Z) ∧
  Display.displayText now (Display.new_Date 1700000800000) = Display.Literal "Just now" ∧
  Display.updateLastUpdateDisplay true now seen = Some (Display.Literal "10m ago") ∧
  Display.updateLastUpdateDisplay true now far = Some (Display.Literal "Invalid Date").
Proof.
  intros now seen far.
  assert (Hnow : (Z.abs now ≤ 8640000000000000)%Z) by (by vm_compute).
  assert (Hseen : Dashboard.lastUpdate seen = Some 1700000000000%Z) by reflexivity.
  assert (Hfar : Dashboard.lastUpdate far = Some 9000000000000000%Z) by reflexivity.
  split; [split; [exact Hnow|split; [exact Hseen|exact Hfar]]|].
  split; [|split].
  - refine (proj1 (proj1 (displayText_cases now 1700000800000 seen Hnow) _) _);
      [by vm_compute|unfold now; lia].
  - destruct (displayText_cases now 1700000000000 seen Hnow)
      as (Hvalid & _ & Hupd & _).
    rewrite (Hupd Hseen). apply (f_equal Some).
    refine (proj2 (proj1 (proj2 (Hvalid _)) _)); [by vm_compute|unfold now; lia].
  - destruct (displayText_cases now 9000000000000000 far Hnow)
      as (_ & Hinvalid & Hupd & _).
    rewrite (Hupd Hfar). apply (f_equal Some). apply Hinvalid. by vm_compute.
Defined.

Lemma formatTime_valid (now date : Z) (arg : Display.time_arg) :
  Display.absent arg = false →
  Display.Date_of arg = Display.ValidDate date →
  let minutes := ((now - date) / 60000)%Z in
  Display.formatTime now arg
  = if (minutes <? 1)%Z then Display.Literal "Just now"
    else if (minutes <? 60)%Z then Display.Literal (pretty minutes +:+ "m ago")
    else if (minutes <? 1440)%Z then Display.Literal (pretty (minutes / 60)%Z +:+ "h ago")
    else Display.LocaleDateString date.
Proof.
  intros Habs Hdate minutes. unfold Display.formatTime. by rewrite Habs, Hdate.
Qed.

(** [Utils.formatTime], for a current time that a [Date] can hold: it
    returns [Never] without a date and for the number 0.  Given a valid
    [Date], or its non-zero time value as a number, it returns, by age,
    [Just now] below a minute (a date in the future included), whole
    minutes 1 to 59 below an hour, whole hours 1 to 23 below a day, the
    date from a day on.  Given an invalid [Date] or a number out of range
    it returns [Invalid Date].  Below an hour of age, and on an invalid
    date, it shows what [updateLastUpdateDisplay] of [js/app.js] shows. *)
Theorem formatTime_cases (now date : Z) (arg : Display.time_arg) :
  (Z.abs now ≤ 8640000000000000)%Z →
  arg = Display.TimeDate (Display.new_Date date) ∨
  (arg = Display.TimeNumber date ∧ date ≠ 0%Z) →
  let age := (now - date)%Z in
  (Display.formatTime now Display.NoTime = Display.Literal "Never" ∧
   Display.formatTime now (Display.TimeNumber 0) = Display.Literal "Never") ∧
  ((Z.abs date ≤ 8640000000000000)%Z →
   ((age < 60000)%Z → Display.formatTime now arg = Display.Literal "Just now") ∧
   ((60000 ≤ age < 3600000)%Z →
    (1 ≤ age / 60000 ≤ 59)%Z ∧
    Display.formatTime now arg = Display.Literal (pretty (age / 60000)%Z +:+ "m ago")) ∧
   ((3600000 ≤ age < 86400000)%Z →
    (1 ≤ age / 3600000 ≤ 23)%Z ∧
    Display.formatTime now arg = Display.Literal (pretty (age / 3600000)%Z +:+ "h ago")) ∧
   ((86400000 ≤ age)%Z → Display.formatTime now arg = Display.LocaleDateString date) ∧
   ((age < 3600000)%Z →
    Display.formatTime now arg = Display.displayText now (Display.new_Date date))) ∧
  ((8640000000000000 < Z.abs date)%Z →
   Display.formatTime now arg = Display.Literal "Invalid Date" ∧
   Display.formatTime now arg = Display.displayText now (Display.new_Date date)).
Proof.
  intros Hnow Harg age.
  assert (Habs : Display.absent arg = false).
  { destruct Harg as [->|[-> Hne]]; [done|]. simpl. by apply Z.eqb_neq. }
  assert (Hdate : Display.Date_of arg = Display.new_Date date).
  { by destruct Harg as [->|[-> _]]. }
  split; [by split|]. split.
  - intros Hvalid. rewrite (new_Date_valid _ Hvalid) in Hdate |- *.
    rewrite (formatTime_valid now date arg Habs Hdate). fold age.
    assert (Hjust : (age < 60000)%Z →
              (if (age / 60000 <? 1)%Z then Display.Literal "Just now"
               else if (age / 60000 <? 60)%Z
                    then Display.Literal (pretty (age / 60000)%Z +:+ "m ago")
               else if (age / 60000 <? 1440)%Z
                    then Display.Literal (pretty (age / 60000 / 60)%Z +:+ "h ago")
               else Display.LocaleDateString date) = Display.Literal "Just now").
    { intros H. assert ((age / 60000 <? 1)%Z = true) as ->; [|done].
      apply Z.ltb_lt. Z.div_mod_to_equations. lia. }
    assert (Hmin : (60000 ≤ age < 3600000)%Z →
              (if (age / 60000 <? 1)%Z then Display.Literal "Just now"
               else if (age / 60000 <? 60)%Z
                    then Display.Literal (pretty (age / 60000)%Z +:+ "m ago")
               else if (age / 60000 <? 1440)%Z
                    then Display.Literal (pretty (age / 60000 / 60)%Z +:+ "h ago")
               else Display.LocaleDateString date)
              = Display.Literal (pretty (age / 60000)%Z +:+ "m ago")).
    { intros H.
      assert ((age / 60000 <? 1)%Z = false) as ->
        by (apply Z.ltb_ge; Z.div_mod_to_equations; lia).
      assert ((age / 60000 <? 60)%Z = true) as ->
        by (apply Z.ltb_lt; Z.div_mod_to_equations; lia).
      done. }
    split; [exact Hjust|]. split; [|split; [|split]].
    + intros H. split; [Z.div_mod_to_equations; lia|by apply Hmin].
    + intros H. split; [Z.div_mod_to_equations; lia|].
      assert ((age / 60000 <? 1)%Z = false) as ->
        by (apply Z.ltb_ge; Z.div_mod_to_equations; lia).
      assert ((age / 60000 <? 60)%Z = false) as ->
        by (apply Z.ltb_ge; Z.div_mod_to_equations; lia).
      assert ((age / 60000 <? 1440)%Z = true) as ->
        by (apply Z.ltb_lt; Z.div_mod_to_equations; lia).
      do 3 f_equal. Z.div_mod_to_equations. lia.
    + intros H.
      assert ((age / 60000 <? 1)%Z = false) as ->
        by (apply Z.ltb_ge; Z.div_mod_to_equations; lia).
      assert ((age / 60000 <? 60)%Z = false) as ->
        by (apply Z.ltb_ge; Z.div_mod_to_equations; lia).
      assert ((age / 60000 <? 1440)%Z = false) as ->
        by (apply Z.ltb_ge; Z.div_mod_to_equations; lia).
      done.
    + intros H. destruct (Z_lt_ge_dec age 60000) as [Hlt|Hge].
      * rewrite (Hjust Hlt). symmetry. by apply displayText_below_minute.
      * assert (60000 ≤ age < 3600000)%Z as Hr by lia.
        rewrite (Hmin Hr). symmetry. by apply displayText_minutes.
  - intros Hout. rewrite (new_Date_invalid _ Hout) in Hdate |- *.
    unfold Display.formatTime. rewrite Habs, Hdate. by split.
Qed.

Lemma formatTime_cases_witness :
  let now := 1700010000000%Z in
  ((Z.abs now ≤ 8640000000000000)%Z ∧ 1700000000000%Z ≠ 0%Z) ∧
  Display.formatTime now (Display.TimeNumber 1700000000000) = Display.Literal "2h ago" ∧
  Display.formatTime now (Display.TimeDate (Display.new_Date 9000000000000000))
  = Display.Literal "Invalid Date".
Proof.
  intros now.
  assert (Hnow : (Z.abs now ≤ 8640000000000000)%Z) by (by vm_compute).
  assert (Hne : 1700000000000%Z ≠ 0%Z) by discriminate.
  split; [split; [exact Hnow|exact Hne]|]. split.
  - destruct (formatTime_cases now 1700000000000 (Display.TimeNumber 1700000000000)
                Hnow (or_intror (conj eq_refl Hne))) as (_ & Hvalid & _).
    destruct Hvalid as (_ & _ & Hhours & _); [by vm_compute|].
    refine (proj2 (Hhours _)). unfold now. lia.
  - destruct (formatTime_cases now 9000000000000000
                (Display.TimeDate (Display.new_Date 9000000000000000))
                Hnow (or_introl eq_refl)) as (_ & _ & Hinvalid).
    refine (proj1 (Hinvalid _)). by vm_compute.
Defined.

(** ** Toggle-all and its echo *)

Lemma toggleAll_updates_fmap (st : gmap string RelayState) :
  toggleAll_updates st
  = (λ i, (status_path (relay_id i), not_ (cached_status st (relay_id i)))) <$> channels.
Proof.
  unfold toggleAll_updates.
  rewrite (foldl_set_fresh (λ i, status_path (relay_id i))
             (λ i, not_ (cached_status st (relay_id i)))); [done|].
  apply status_paths_NoDup.
Qed.

Lemma toggleAll_echo_cached clock (a : App) (i : nat) :
  i ∈ channels →
  cached_status
    (relayStates (updateRelayStates clock (Traffic.toggleAll_echo (relayStates a)) a))
    (relay_id i)
  = not_ (cached_status (relayStates a) (relay_id i)).
Proof.
  intros Hi. apply list_elem_of_lookup in Hi as [j Hj].
  rewrite updateRelayStates_store. unfold cached_status at 1.
  rewrite (forEach_mentioned _ 0 _ _ 0 j (relay_id i)
             (mkRelayData (not_ (cached_status (relayStates a) (relay_id i)))
                          VUndefined VUndefined)).
  - simpl. unfold or_else, not_. simpl.
    by destruct (truthy (cached_status (relayStates a) (relay_id i))).
  - unfold Traffic.toggleAll_echo, Object_keys. rewrite <- list_fmap_compose.
    apply relay_ids_NoDup.
  - unfold Traffic.toggleAll_echo. by rewrite list_lookup_fmap, Hj.
Qed.

(** A second toggle-all before any snapshot arrives repeats the first
    batch, value for value; once the snapshot that carries the first
    batch is applied, a second toggle-all writes back the on/off pattern
    the first one started from. *)
Theorem toggleAll_twice (r1 r2 : Reply) (clock : nat → Z) (a : App) :
  let first := toggleAll_updates (relayStates a) in
  let a1 := toggleAllRelays r1 a in
  let a2 := updateRelayStates clock (Traffic.toggleAll_echo (relayStates a)) a1 in
  sent (toggleAllRelays r2 a1) = sent a ++ [DbUpdate first; DbUpdate first] ∧
  sent (toggleAllRelays r2 a2)
  = sent a ++ [DbUpdate first;
               DbUpdate ((λ i, (status_path (relay_id i),
                                VBool (truthy (cached_status (relayStates a) (relay_id i)))))
                         <$> channels)].
Proof.
  intros first a1 a2.
  assert (Hsent : ∀ r (c : App),
            sent (toggleAllRelays r c) = sent c ++ [DbUpdate (toggleAll_updates (relayStates c))])
    by (by intros [] c).
  assert (Hst1 : relayStates a1 = relayStates a) by apply toggleAllRelays_store.
  split.
  - rewrite Hsent, Hst1. unfold a1. rewrite Hsent, <- app_assoc. done.
  - assert (Hsecond : toggleAll_updates (relayStates a2)
            = (λ i, (status_path (relay_id i),
                     VBool (truthy (cached_status (relayStates a) (relay_id i)))))
              <$> channels).
    { rewrite toggleAll_updates_fmap. apply list_fmap_ext.
      intros j i Hj. f_equal.
      assert (relayStates a2
              = relayStates (updateRelayStates clock
                               (Traffic.toggleAll_echo (relayStates a)) a)) as ->.
      { unfold a2. by rewrite !updateRelayStates_store, Hst1. }
      rewrite toggleAll_echo_cached by (by eapply list_elem_of_lookup_2).
      unfold not_. cbn [truthy]. by rewrite negb_involutive. }
    rewrite Hsent, Hsecond.
    assert (sent a2 = sent a1) as ->.
    { unfold a2, updateRelayStates. by destruct (forEach _ _ _ _ _). }
    unfold a1. rewrite Hsent, <- app_assoc. done.
Qed.

(** ** Further properties of [frontend/js/app.js] *)

Lemma f_forEach_other clock i relayData (st : gmap string Frontend.RelayState) n relayId :
  relayId ∉ Object_keys relayData →
  (Frontend.forEach clock i relayData st n).1 !! relayId = st !! relayId.
Proof.
  unfold Object_keys. revert i st n.
  induction relayData as [|[k data] rest IH]; intros i st n Hk; simpl; [done|].
  rewrite fmap_cons in Hk. apply not_elem_of_cons in Hk as [Hne Hk].
  rewrite IH by done. by rewrite lookup_insert_ne.
Qed.

Lemma f_forEach_mentioned clock i relayData (st : gmap string Frontend.RelayState) n
    j relayId data :
  NoDup (Object_keys relayData) →
  relayData !! j = Some (relayId, data) →
  (Frontend.forEach clock i relayData st n).1 !! relayId
  = Some (Frontend.entry_of st (clock (i + j)%nat) relayId data).
Proof.
  unfold Object_keys. revert i st n j.
  induction relayData as [|[k r] rest IH]; intros i st n j Hnd Hj; [done|].
  rewrite fmap_cons in Hnd. apply NoDup_cons in Hnd as [Hk Hnd].
  destruct j as [|j]; simpl in *.
  - injection Hj as -> ->.
    rewrite f_forEach_other by done.
    rewrite lookup_insert_eq. by rewrite Nat.add_0_r.
  - assert (k ≠ relayId) as Hne.
    { intros ->. apply Hk. apply list_elem_of_fmap.
      exists (relayId, data). split; [done|]. by eapply list_elem_of_lookup_2. }
    rewrite (IH (S i) _ _ j) by done.
    unfold Frontend.entry_of, Frontend.cached_name. rewrite lookup_insert_ne by done.
    by replace (S i + j)%nat with (i + S j)%nat by lia.
Qed.

Lemma f_updateRelayStates_store clock relayData (fa : Frontend.App) :
  Frontend.relayStates (Frontend.updateRelayStates clock relayData fa)
  = (Frontend.forEach clock 0 relayData (Frontend.relayStates fa) 0).1.
Proof.
  unfold Frontend.updateRelayStates.
  by destruct (Frontend.forEach clock 0 relayData (Frontend.relayStates fa) 0).
Qed.

(** In the frontend, applying a snapshot leaves the entry of a channel it
    does not mention as it is.  For a mentioned channel with an entry the
    state is replaced and the time stamp set; a name that is not
    delivered keeps the cached one, but a power reading that is not
    delivered is not kept: it becomes 0. *)
Theorem f_snapshot_entry (clock : nat → Z) (relayData : list (string * RelayData))
    (fa : Frontend.App) (relayId : string) :
  let fa' := Frontend.updateRelayStates clock relayData fa in
  (relayId ∉ Object_keys relayData →
   Frontend.relayStates fa' !! relayId = Frontend.relayStates fa !! relayId) ∧
  (∀ j data e,
     NoDup (Object_keys relayData) →
     relayData !! j = Some (relayId, data) →
     Frontend.relayStates fa !! relayId = Some e →
     truthy (Frontend.name e) = true →
     Frontend.relayStates fa' !! relayId
     = Some (Frontend.mkRelayState
               (or_else (r_status data) (VBool false))
               (if truthy (r_name data) then r_name data else Frontend.name e)
               (Some (clock j))
               (if truthy (r_power_usage data) then r_power_usage data else VNum 0))).
Proof.
  intros fa'. unfold fa'. rewrite f_updateRelayStates_store. split.
  - intros Hout. by apply f_forEach_other.
  - intros j data e Hnd Hj He Hname.
    rewrite (f_forEach_mentioned _ 0 relayData _ 0 j relayId data) by done.
    unfold Frontend.entry_of, Frontend.cached_name. rewrite He.
    unfold or_else. by rewrite Hname.
Qed.

Lemma f_snapshot_entry_witness :
  let first := [("relay_3", mkRelayData (VBool true) (VStr "Heater") (VNum 750))] in
  let fa := Frontend.updateRelayStates (λ _, 500%Z) first Frontend.new_HomeAutomationApp in
  let relayData := [("relay_3", mkRelayData (VBool true) VUndefined VUndefined)] in
  let fa' := Frontend.updateRelayStates (λ _, 1000%Z) relayData fa in
  Frontend.relayStates fa !! "relay_3"
    = Some (Frontend.mkRelayState (VBool true) (VStr "Heater") (Some 500%Z) (VNum 750)) ∧
  Frontend.relayStates fa' !! "relay_3"
    = Some (Frontend.mkRelayState (VBool true) (VStr "Heater") (Some 1000%Z) (VNum 0)).
Proof.
  intros first fa relayData fa'.
  assert (He : Frontend.relayStates fa !! "relay_3"
               = Some (Frontend.mkRelayState (VBool true) (VStr "Heater")
                         (Some 500%Z) (VNum 750)))
    by (vm_compute; reflexivity).
  split; [exact He|].
  apply (proj2 (f_snapshot_entry (λ _, 1000%Z) relayData fa "relay_3") 0
           (mkRelayData (VBool true) VUndefined VUndefined)
           (Frontend.mkRelayState (VBool true) (VStr "Heater") (Some 500%Z) (VNum 750))).
  - apply NoDup_singleton.
  - reflexivity.
  - exact He.
  - reflexivity.
Defined.

Lemma f_setAll_updates_fmap (v : value) :
  Frontend.setAll_updates v = (λ i, (status_path (relay_id i), v)) <$> channels.
Proof.
  unfold Frontend.setAll_updates. change (seq 1 Frontend.RELAY_COUNT) with channels.
  rewrite (foldl_set_fresh (λ i, status_path (relay_id i)) (λ _, v)); [done|].
  apply status_paths_NoDup.
Qed.

(** In the frontend no write intent changes the store or the connection
    flag, however the request settles.  A toggle of a channel with an
    entry and a set-all make exactly one request, carrying the negated
    cached state resp. the requested value: to the REST server when it is
    connected (and then nothing is sent to the database), to the database
    otherwise.  A toggle-all makes at most one request. *)
Theorem f_write_intents (reply : Reply) (fa : Frontend.App) :
  (∀ relayId e, Frontend.relayStates fa !! relayId = Some e →
     ∃ fa', Frontend.toggleRelay reply relayId fa = Frontend.Returned fa' ∧
            Frontend.relayStates fa' = Frontend.relayStates fa ∧
            Frontend.apiConnected fa' = Frontend.apiConnected fa ∧
            Frontend.sent fa'
            = Frontend.sent fa
              ++ [if Frontend.apiConnected fa
                  then Frontend.Api ("/relays/" +:+ relayId) (Some "PUT")
                         (Some [("status", VBool (negb (truthy (Frontend.status e))))])
                  else Frontend.Db (DbSet (status_path relayId)
                                      (VBool (negb (truthy (Frontend.status e)))))]) ∧
  (∀ v, Frontend.relayStates (Frontend.setAllRelays reply v fa) = Frontend.relayStates fa ∧
        Frontend.apiConnected (Frontend.setAllRelays reply v fa) = Frontend.apiConnected fa ∧
        Frontend.sent (Frontend.setAllRelays reply v fa)
        = Frontend.sent fa
          ++ [if Frontend.apiConnected fa
              then Frontend.Api "/relays/bulk" (Some "PUT") (Some [("status", v)])
              else Frontend.Db (DbUpdate ((λ i, (status_path (relay_id i), v)) <$> channels))]) ∧
  (Frontend.relayStates (Frontend.toggleAllRelays reply fa) = Frontend.relayStates fa ∧
   Frontend.apiConnected (Frontend.toggleAllRelays reply fa) = Frontend.apiConnected fa ∧
   ∃ l, Frontend.sent (Frontend.toggleAllRelays reply fa) = Frontend.sent fa ++ l ∧
        length l ≤ 1).
Proof.
  split; [|split].
  - intros relayId e He. unfold Frontend.toggleRelay. rewrite He.
    destruct reply, (Frontend.apiConnected fa) eqn:Hapi;
      (eexists; split; [reflexivity|]); simpl; rewrite ?Hapi; by repeat split.
  - intros v. unfold Frontend.setAllRelays. rewrite f_setAll_updates_fmap.
    destruct reply, (Frontend.apiConnected fa) eqn:Hapi; simpl; rewrite ?Hapi;
      by repeat split.
  - unfold Frontend.toggleAllRelays.
    destruct (Frontend.apiConnected fa) eqn:Hapi.
    + destruct reply; simpl; rewrite ?Hapi; (split; [done|split; [done|]]);
        eexists [_]; (split; [reflexivity|simpl; lia]).
    + destruct (Frontend.toggleAll_updates (Frontend.relayStates fa)) as [updates|].
      * destruct reply; simpl; rewrite ?Hapi; (split; [done|split; [done|]]);
          eexists [_]; (split; [reflexivity|simpl; lia]).
      * simpl. rewrite ?Hapi. split; [done|]. split; [done|].
        exists []. split; [by rewrite app_nil_r|simpl; lia].
Qed.

Lemma f_write_intents_witness :
  let fa := Frontend.checkApiConnection Ack Frontend.new_HomeAutomationApp in
  Frontend.relayStates fa !! "relay_3" = Some (Frontend.initial_entry 3) ∧
  ∃ fa', Frontend.toggleRelay Reject "relay_3" fa = Frontend.Returned fa' ∧
         Frontend.relayStates fa' = Frontend.relayStates fa ∧
         Frontend.sent fa'
         = [Frontend.Api "/status" None None;
            Frontend.Api "/relays/relay_3" (Some "PUT") (Some [("status", VBool true)])].
Proof.
  intros fa.
  assert (He : Frontend.relayStates fa !! "relay_3" = Some (Frontend.initial_entry 3))
    by (vm_compute; reflexivity).
  split; [exact He|].
  destruct (proj1 (f_write_intents Reject fa) "relay_3" (Frontend.initial_entry 3) He)
    as (fa' & Hret & Hst & _ & Hsent).
  exists fa'. split; [exact Hret|]. split; [exact Hst|exact Hsent].
Defined.

(** *** Loading and refreshing *)



(** ** The authentication manager *)

Lemma auth_handle_fields (ev : Auth.Event) (m : Auth.AuthManager) :
  Auth.is_auth_state ev = false →
  Auth.currentUser (Auth.handle ev m) = Auth.currentUser m ∧
  Auth.loginModalHidden (Auth.handle ev m) = Auth.loginModalHidden m ∧
  Auth.homeAutomationApp (Auth.handle ev m) = Auth.homeAutomationApp m.
Proof.
  destruct ev as [user|[|code]|[|]]; simpl; try done.
Qed.

Lemma auth_run_snoc (evs : list Auth.Event) (ev : Auth.Event) (m : Auth.AuthManager) :
  Auth.run (evs ++ [ev]) m = Auth.handle ev (Auth.run evs m).
Proof. unfold Auth.run. by rewrite foldl_snoc. Qed.

(** Once the authentication state has been notified at least once, the
    login modal is hidden exactly when a user is signed in, whatever login
    attempts and logouts happen around the notifications: a successful
    login does not close the modal by itself and a logout does not open
    it; only the notification does. *)
Theorem modal_follows_auth_state (evs : list Auth.Event) (m : Auth.AuthManager) :
  Exists (λ ev, Auth.is_auth_state ev = true) evs →
  (Auth.loginModalHidden (Auth.run evs m) = true
   ↔ is_Some (Auth.currentUser (Auth.run evs m))) ∧
  (∀ ev, Auth.is_auth_state ev = false →
         Auth.loginModalHidden (Auth.handle ev (Auth.run evs m))
         = Auth.loginModalHidden (Auth.run evs m) ∧
         Auth.currentUser (Auth.handle ev (Auth.run evs m))
         = Auth.currentUser (Auth.run evs m)).
Proof.
  intros Hex. split.
  - induction evs as [|ev evs IH] using rev_ind.
    + by apply Exists_nil in Hex.
    + rewrite auth_run_snoc.
      destruct (Auth.is_auth_state ev) eqn:E.
      * destruct ev as [[u|]|result|reply]; try discriminate; simpl.
        -- split; [by eexists|done].
        -- split; [done|]. by intros [? ?].
      * destruct (auth_handle_fields ev (Auth.run evs m) E) as (-> & -> & _).
        apply IH. apply Exists_app in Hex as [Hex|Hex]; [done|].
        apply Exists_cons in Hex as [Hex|Hex]; [congruence|].
        by apply Exists_nil in Hex.
  - intros ev Hev.
    by destruct (auth_handle_fields ev (Auth.run evs m) Hev) as (-> & -> & _).
Qed.

Lemma modal_follows_auth_state_witness :
  let m := Auth.new_AuthManager false true "" (Some new_HomeAutomationApp) in
  let evs := [Auth.AuthStateChanged None; Auth.LoginSubmit (Auth.SignInError "auth/wrong-password");
              Auth.LoginSubmit Auth.SignInOk; Auth.AuthStateChanged (Some "uid-1");
              Auth.LogoutClick Ack] in
  Exists (λ ev, Auth.is_auth_state ev = true) evs ∧
  (Auth.loginModalHidden (Auth.run evs m) = true
   ↔ is_Some (Auth.currentUser (Auth.run evs m))) ∧
  Auth.currentUser (Auth.run evs m) = Some "uid-1".
Proof.
  intros m evs.
  assert (Hex : Exists (λ ev, Auth.is_auth_state ev = true) evs)
    by (apply Exists_cons_hd; reflexivity).
  split; [exact Hex|].
  split; [exact (proj1 (modal_follows_auth_state evs m Hex))|reflexivity].
Defined.

Lemma auth_handle_dashboard (ev : Auth.Event) (m : Auth.AuthManager) :
  Auth.homeAutomationApp (Auth.handle ev m)
  = (if Auth.is_sign_in ev then Dashboard.init else id) <$> Auth.homeAutomationApp m.
Proof.
  destruct ev as [[u|]|[|code]|[|]]; simpl; try done;
    by destruct (Auth.homeAutomationApp m).
Qed.

Lemma init_fields (a : App) :
  relayStates (init a) = relayStates a ∧
  deviceOnline (init a) = deviceOnline a ∧
  filter (λ c, Traffic.is_write c = true) (sent (init a))
  = filter (λ c, Traffic.is_write c = true) (sent a) ∧
  length (filter (λ c, Traffic.is_subscription c = true) (sent (init a)))
  = length (filter (λ c, Traffic.is_subscription c = true) (sent a)) + 3.
Proof.
  split; [done|]. split; [done|].
  unfold init, call, console_log. cbn [sent].
  rewrite <- !app_assoc. cbn [app].
  rewrite !filter_app, !length_app.
  split.
  - rewrite <- (app_nil_r (filter _ (sent a))) at 2. f_equal.
  - f_equal.
Qed.

(** The authentication manager reaches the dashboard through [init()]
    only: every notification of a signed-in user calls it once more, so
    the listeners registered are three for each such notification (signing
    out and in again doubles them), while the store, the online flag and
    the writes sent are never touched.  Without a dashboard on the page
    nothing happens. *)
Theorem sign_ins_init_dashboard (evs : list Auth.Event) (m : Auth.AuthManager) :
  (∀ a, Auth.homeAutomationApp m = Some a →
     ∃ a', Auth.homeAutomationApp (Auth.run evs m) = Some a' ∧
           relayStates a' = relayStates a ∧
           deviceOnline a' = deviceOnline a ∧
           filter (λ c, Traffic.is_write c = true) (sent a')
           = filter (λ c, Traffic.is_write c = true) (sent a) ∧
           length (filter (λ c, Traffic.is_subscription c = true) (sent a'))
           = length (filter (λ c, Traffic.is_subscription c = true) (sent a))
             + 3 * length (filter (λ ev, Auth.is_sign_in ev = true) evs)) ∧
  (Auth.homeAutomationApp m = None → Auth.homeAutomationApp (Auth.run evs m) = None).
Proof.
  split.
  - intros a Ha. induction evs as [|ev evs IH] using rev_ind.
    + exists a. simpl. repeat split; first [done|lia].
    + destruct IH as (a' & Ha' & Hst & Hon & Hw & Hsub).
      rewrite auth_run_snoc, auth_handle_dashboard, Ha'.
      rewrite (filter_app _ evs [ev]), length_app, (filter_cons _ ev []).
      destruct (Auth.is_sign_in ev) eqn:E.
      * exists (init a'). destruct (init_fields a') as (-> & -> & -> & ->).
        rewrite decide_True by done. simpl.
        repeat split; first [done|lia].
      * exists a'. rewrite decide_False by congruence. simpl.
        repeat split; first [done|lia].
  - intros Hnone. induction evs as [|ev evs IH] using rev_ind; [done|].
    by rewrite auth_run_snoc, auth_handle_dashboard, IH.
Qed.

Lemma sign_ins_init_dashboard_witness :
  let m := Auth.new_AuthManager false true "" (Some new_HomeAutomationApp) in
  let evs := [Auth.AuthStateChanged (Some "uid-1"); Auth.AuthStateChanged None;
              Auth.AuthStateChanged (Some "uid-1")] in
  ∃ a', Auth.homeAutomationApp (Auth.run evs m) = Some a' ∧
        relayStates a' = relayStates new_HomeAutomationApp ∧
        length (filter (λ c, Traffic.is_subscription c = true) (sent a')) = 6.
Proof.
  intros m evs.
  destruct (proj1 (sign_ins_init_dashboard evs m) new_HomeAutomationApp eq_refl)
    as (a' & Ha' & Hst & _ & _ & Hsub).
  exists a'. split; [exact Ha'|]. split; [exact Hst|exact Hsub].
Defined.

(** Every error code gets a non-empty message; the five known codes get
    five different messages, and any other code gets the general message,
    which is none of those five.  So a failed login always shows an error
    line that is not empty. *)
Theorem getErrorMessage_informative (code : string) :
  let known := ["auth/invalid-email"; "auth/user-disabled"; "auth/user-not-found";
                "auth/wrong-password"; "auth/too-many-requests"] in
  Auth.getErrorMessage code ≠ "" ∧
  (code ∈ known ↔ Auth.getErrorMessage code ≠ "Login failed. Please try again.") ∧
  (∀ code', code ∈ known → code' ∈ known →
            Auth.getErrorMessage code = Auth.getErrorMessage code' → code = code') ∧
  (∀ m, Auth.loginErrorHidden (Auth.login (Auth.SignInError code) m) = false ∧
        Auth.loginErrorText (Auth.login (Auth.SignInError code) m) ≠ "").
Proof.
  intros known.
  assert (Hcases : (code ∈ known) ∨
                   ((code ∉ known) ∧
                    Auth.getErrorMessage code = "Login failed. Please try again.")).
  { unfold Auth.getErrorMessage, known.
    repeat (case_decide; [left; subst; apply (bool_decide_unpack _); by vm_compute|]).
    right. split; [|done].
    intros Hin. repeat (apply elem_of_cons in Hin as [->|Hin]; [done|]).
    by apply elem_of_nil in Hin. }
  assert (Hknown : ∀ c, c ∈ known →
            Auth.getErrorMessage c ≠ "Login failed. Please try again." ∧
            Auth.getErrorMessage c ≠ "").
  { intros c Hin. unfold known in Hin.
    repeat (apply elem_of_cons in Hin as [->|Hin]; [by vm_compute|]).
    by apply elem_of_nil in Hin. }
  assert (Hshown : Auth.getErrorMessage code ≠ "").
  { destruct Hcases as [Hin|[_ ->]]; [by apply Hknown|done]. }
  split; [exact Hshown|]. split; [|split].
  - split.
    + intros Hin. by apply Hknown.
    + intros Hne. by destruct Hcases as [Hin|[_ Heq]].
  - intros code' Hin Hin' Heq. unfold known in Hin, Hin'.
    repeat (apply elem_of_cons in Hin as [->|Hin];
            [repeat (apply elem_of_cons in Hin' as [->|Hin'];
                     [done || (vm_compute in Heq; discriminate Heq)|]);
             by apply elem_of_nil in Hin'|]).
    by apply elem_of_nil in Hin.
  - intros m. simpl. by split.
Qed.
